(** * Kismet: Result values, tagged errors, the exhaustive matcher,
      and the fluent wrappers Box and AsyncBox

    The library is TypeScript; its static types are erased when it runs, so
    the development follows the code as it executes: one universe of
    run-time values, plain objects as finite maps from property names to
    values, callbacks as functions that may change the world and may throw,
    and [Box] instances as objects with an identity in a store. *)

From Stdlib Require Import Ascii String.
From stdpp Require Import base strings list gmap pretty.

Set Default Proof Using "Type".
Open Scope string_scope.

(** ** The host language *)
Module Js.

(** The prototype an object inherits from. *)
Inductive proto : Type :=
  | Object_prototype
  | Error_prototype
  | TypeError_prototype.

(** Run-time values.  Numbers are the integral ones, which is all the
    library's examples use; BigInts are the payloads [t.bigint] declares; an
    object is its prototype together with its own properties. *)
#[warning="-register-all"]
Inductive value : Type :=
  | VUndefined
  | VNull
  | VBool (b : bool)
  | VNum (z : Z)
  | VBigInt (n : Z)
  | VStr (s : string)
  | VObj (p : proto) (own : gmap string value).

(** How an evaluation ends: with a value, or with a thrown value. *)
Inductive Completion (A : Type) : Type :=
  | Normal (a : A)
  | Throw (thrown : value).
Arguments Normal {A} a.
Arguments Throw {A} thrown.

Definition is_Normal {A} (c : Completion A) : bool :=
  match c with Normal _ => true | Throw _ => false end.

(** [new Error(message)] and the host's own [TypeError]s. *)
Definition new_Error (message : string) : value :=
  VObj Error_prototype {[ "message" := VStr message ]}.

Definition new_TypeError (message : string) : value :=
  VObj TypeError_prototype {[ "message" := VStr message ]}.

(** [v instanceof Error]: the prototype chain of [v] reaches Error.prototype. *)
Definition instanceof_Error (v : value) : bool :=
  match v with
  | VObj Error_prototype _ | VObj TypeError_prototype _ => true
  | _ => false
  end.

(** The property names every ordinary object inherits from
    Object.prototype (ECMAScript, including its annex B). *)
Definition Object_prototype_members : list string :=
  [ "constructor"; "hasOwnProperty"; "isPrototypeOf"; "propertyIsEnumerable";
    "toLocaleString"; "toString"; "valueOf"; "__proto__";
    "__defineGetter__"; "__defineSetter__"; "__lookupGetter__";
    "__lookupSetter__" ].

(** The parts of the host the library calls but does not define:
    the conversions of numbers and objects to strings, [JSON.stringify]
    (which returns a string or undefined, or throws), and
    [Object_prototype_call m arg], the completion of the plain call [f(arg)]
    where [f] is the value of Object.prototype[m]; [this] is undefined in
    such a call, which is all Object.prototype.toString looks at. *)
Class Host : Type := {
  Number_toString : Z → string;
  Object_ToString : proto → gmap string value → Completion string;
  JSON_stringify : value → Completion (option string);
  Object_prototype_call : string → value → Completion value;
  Object_prototype_toString arg :
    Object_prototype_call "toString" arg = Normal (VStr "[object Undefined]")
}.

(** The abstract operation ToString, which template literals, property keys
    and [String(v)] go through. *)
Definition ToString `{Host} (v : value) : Completion string :=
  match v with
  | VUndefined => Normal "undefined"
  | VNull => Normal "null"
  | VBool true => Normal "true"
  | VBool false => Normal "false"
  | VNum z => Normal (Number_toString z)
  | VBigInt n => Normal (pretty n)
  | VStr s => Normal s
  | VObj p own => Object_ToString p own
  end.

(** [v[key]] for a property no prototype of [v] defines: the own property
    or undefined; reading a property of undefined or null throws. *)
Definition get (v : value) (key : string) : Completion value :=
  match v with
  | VUndefined =>
      Throw (new_TypeError ("Cannot read properties of undefined (reading '" ++ key ++ "')"))
  | VNull =>
      Throw (new_TypeError ("Cannot read properties of null (reading '" ++ key ++ "')"))
  | VObj _ own => Normal (default VUndefined (own !! key))
  | _ => Normal VUndefined
  end.

(** [v === s] for a string [s]. *)
Definition strict_eq_string (v : value) (s : string) : bool :=
  match v with VStr t => String.eqb t s | _ => false end.

(** An object literal [{ ...target, ...source }] where [source] may be
    undefined: the own properties of [source] are copied over [target]. *)
Definition spread (target : gmap string value)
    (source : option (gmap string value)) : gmap string value :=
  match source with
  | Some props => props ∪ target
  | None => target
  end.

(** What a property lookup on an object whose own properties are
    functions finds: the own property, else the one inherited from
    Object.prototype, else undefined. *)
Inductive property (F : Type) : Type :=
  | Own (f : F)
  | Inherited (member : string)
  | Undefined.
Arguments Own {F} f.
Arguments Inherited {F} member.
Arguments Undefined {F}.

Definition lookup_property {F} (obj : gmap string F) (key : string) : property F :=
  match obj !! key with
  | Some f => Own f
  | None =>
      if bool_decide (key ∈ Object_prototype_members) then Inherited key
      else Undefined
  end.

End Js.
Export Js.

(** ** result.ts *)
Module result.

(** [type Result<T, E> = OkVariant<T> | ErrVariant<E>] *)
Inductive Result : Type :=
  | OkVariant (v : value)
  | ErrVariant (error : value).

Definition _tag (r : Result) : string :=
  match r with OkVariant _ => "Ok" | ErrVariant _ => "Err" end.

Definition ok (v : value) : Result := OkVariant v.
Definition err (error : value) : Result := ErrVariant error.

Definition isOk (r : Result) : bool := String.eqb (_tag r) "Ok".
Definition isErr (r : Result) : bool := String.eqb (_tag r) "Err".

End result.
Export result.

(** ** The world callbacks run in *)

(** A [Box] instance is an object; [boxes] maps each live instance to the
    contents of its [result] field.  [calls] is the journal instrumented
    callbacks write to, the way the test suite counts invocations. *)
Definition loc := nat.

Record World : Type := mkWorld {
  boxes : gmap loc Result;
  calls : list (string * value)
}.

Definition Eff (A : Type) : Type := World → Completion A * World.

Definition ret {A} (a : A) : Eff A := fun w => (Normal a, w).

Definition throw {A} (x : value) : Eff A := fun w => (Throw x, w).

Definition bind {A B} (c : Eff A) (k : A → Eff B) : Eff B :=
  fun w =>
    match c w with
    | (Normal a, w') => k a w'
    | (Throw x, w') => (Throw x, w')
    end.

Definition lift {A} (c : Completion A) : Eff A := fun w => (c, w).

(** [try { c } catch (e) { h(e) }] *)
Definition try_catch {A} (c : Eff A) (h : value → Eff A) : Eff A :=
  fun w =>
    match c w with
    | (Normal a, w') => (Normal a, w')
    | (Throw x, w') => h x w'
    end.

Notation "'let*' x ':=' c 'in' k" := (bind c (fun x => k))
  (at level 10, x name, c at level 100, k at level 200).

(** An instrumented callback: it notes its name and argument in the
    journal, then runs. *)
Definition spy {A} (name : string) (f : value → Eff A) : value → Eff A :=
  fun v w => f v (mkWorld (boxes w) (calls w ++ [(name, v)])).

(** A callback that computes its result and does nothing else. *)
Definition pure (f : value → value) : value → Eff value :=
  fun v => ret (f v).

(** ** error.ts *)
Module error.

(** [unknownError(cause)]: the reserved variant for a caught value nobody
    mapped to a domain error. *)
Definition unknownError `{Host} (cause : value) : Completion value :=
  let message :=
    if instanceof_Error cause then
      (* cause.message: the own property, else Error.prototype.message *)
      match cause with
      | VObj _ own => Normal (default (VStr EmptyString) (own !! "message"))
      | _ => Normal VUndefined
      end
    else
      match ToString cause with
      | Normal s => Normal (VStr s)
      | Throw x => Throw x
      end in
  match message with
  | Normal m =>
      Normal (VObj Object_prototype
                (<["message" := m]>
                   (<["cause" := cause]> {[ "_tag" := VStr "UnknownError" ]})))
  | Throw x => Throw x
  end.

(** [defineErrors(definitions)]: one constructor per key of [definitions];
    each assignment [result[tag] = ...] defines the property [tag]. *)
Definition defineErrors {D} (definitions : gmap string D)
    : gmap string (option (gmap string value) → value) :=
  map_fold
    (fun tag _ result =>
       <[tag := fun props =>
                  VObj Object_prototype (spread {[ "_tag" := VStr tag ]} props)]>
         result)
    ∅ definitions.

(** [new (makeTaggedError(tag))(props)]: an instance of a class that
    extends [Error], so its prototype chain reaches Error.prototype.  The
    constructor passes the message to [super], then the instance gets its
    fields [_tag] and [props] and its [name]. *)
Definition makeTaggedError `{Host} (tag : string) (props : value) : Completion value :=
  match JSON_stringify props with
  | Normal json =>
      Normal (VObj Error_prototype
                (<["name" := VStr tag]>
                   (<["props" := props]>
                      (<["_tag" := VStr tag]>
                         {[ "message" := VStr (tag ++ ": " ++ default "undefined" json) ]}))))
  | Throw x => Throw x
  end.

End error.

(** ** matcher.ts *)
Module matcher.

(** The call [f(arg)] of what a property lookup found. *)
Definition call `{Host} (callee : string) (f : property (value → Eff value))
    (arg : value) : Eff value :=
  match f with
  | Own h => h arg
  | Inherited member => lift (Object_prototype_call member arg)
  | Undefined => throw (new_TypeError (callee ++ " is not a function"))
  end.

(** [matchExhaustive(result, config)].  [config] is an object whose own
    properties are the handlers, under ["ok"] and under each tag. *)
Definition matchExhaustive `{Host} (result : Result)
    (config : gmap string (value → Eff value)) : Eff value :=
  match result with
  | OkVariant v =>
      call "config.ok" (lookup_property config "ok") v
  | ErrVariant error =>
      let* tag := lift (get error "_tag") in
      let* key := lift (ToString tag) in
      match lookup_property config key with
      | Undefined =>
          let* name := lift (ToString tag) in
          throw (new_Error ("Unhandled error tag: " ++ name))
      | handler => call "handler" handler error
      end
  end.

End matcher.

(** ** box.ts

    A method takes the receiver [this] first.  The guards
    [isOk(this.result)] and [isErr(this.result)] are read as the case
    analysis on the variant they decide (lemmas [isOk_OkVariant] and
    [isErr_ErrVariant]). *)
Module Box.

(** [new Box(result)]: a fresh instance whose [result] field is [result]. *)
Definition new_Box (result : Result) : Eff loc :=
  fun w =>
    let this := fresh (dom (boxes w)) in
    (Normal this, mkWorld (<[this := result]> (boxes w)) (calls w)).

(** [this.result] *)
Definition result_of (this : loc) : Eff Result :=
  fun w =>
    match boxes w !! this with
    | Some r => (Normal r, w)
    | None =>
        (Throw (new_TypeError "Cannot read properties of undefined (reading 'result')"), w)
    end.

Definition ok (v : value) : Eff loc := new_Box (result.ok v).

Definition err (error : value) : Eff loc := new_Box (result.err error).

Definition from (fn : unit → Eff value) (onError : value → Eff value) : Eff loc :=
  try_catch
    (let* v := fn tt in ok v)
    (fun e => let* error := onError e in err error).

Definition fail (tag : string) (props : option (gmap string value)) : Eff loc :=
  err (VObj Object_prototype (spread {[ "_tag" := VStr tag ]} props)).

Definition isOk (this : loc) : Eff bool :=
  let* r := result_of this in ret (result.isOk r).

Definition isErr (this : loc) : Eff bool :=
  let* r := result_of this in ret (result.isErr r).

Definition map (this : loc) (fn : value → Eff value) : Eff loc :=
  let* r := result_of this in
  match r with
  | OkVariant v => let* u := fn v in new_Box (result.ok u)
  | ErrVariant _ => new_Box r
  end.

Definition mapErr (this : loc) (fn : value → Eff value) : Eff loc :=
  let* r := result_of this in
  match r with
  | ErrVariant error => let* f := fn error in new_Box (result.err f)
  | OkVariant _ => new_Box r
  end.

Definition flatMap (this : loc) (fn : value → Eff loc) : Eff loc :=
  let* r := result_of this in
  match r with
  | OkVariant v => fn v
  | ErrVariant _ => ret this
  end.

Definition catchTag (this : loc) (tag : string) (handler : value → Eff loc) : Eff loc :=
  let* r := result_of this in
  match r with
  | ErrVariant error =>
      let* t := lift (get error "_tag") in
      if strict_eq_string t tag then handler error else ret this
  | OkVariant _ => ret this
  end.

Definition catchAll (this : loc) (handler : value → Eff loc) : Eff loc :=
  let* r := result_of this in
  match r with
  | ErrVariant error => handler error
  | OkVariant _ => ret this
  end.

Definition orElseTag (this : loc) (tag : string) (fallback : value) : Eff loc :=
  let* r := result_of this in
  match r with
  | ErrVariant error =>
      let* t := lift (get error "_tag") in
      if strict_eq_string t tag then ok fallback else ret this
  | OkVariant _ => ret this
  end.

Definition match_ (this : loc) (handlers_ok handlers_err : value → Eff value) : Eff value :=
  let* r := result_of this in
  match r with
  | OkVariant v => handlers_ok v
  | ErrVariant error => handlers_err error
  end.

Definition matchExhaustive `{Host} (this : loc)
    (config : gmap string (value → Eff value)) : Eff value :=
  let* r := result_of this in matcher.matchExhaustive r config.

Definition unwrapOr (this : loc) (defaultValue : value) : Eff value :=
  let* r := result_of this in
  match r with
  | OkVariant v => ret v
  | ErrVariant _ => ret defaultValue
  end.

Definition unwrap `{Host} (this : loc) : Eff value :=
  let* r := result_of this in
  match r with
  | OkVariant v => ret v
  | ErrVariant error =>
      let* json := lift (JSON_stringify error) in
      throw (new_Error ("Unwrap called on Err: " ++ default "undefined" json))
  end.

Definition toResult (this : loc) : Eff Result := result_of this.

End Box.

(** ** async_box.ts

    The asynchronous wrapper is followed up to the settlement of its
    promise; a callback handed to a promise is taken through its
    completion. *)
Module AsyncBox.

(** A promise, taken at its eventual settlement; [Pending] is the promise
    that never settles. *)
Inductive Promise (A : Type) : Type :=
  | Fulfilled (a : A)
  | Rejected (reason : value)
  | Pending.
Arguments Fulfilled {A} a.
Arguments Rejected {A} reason.
Arguments Pending {A}.

(** [p.then(onFulfilled)] for a callback that returns a plain value. *)
Definition then_ {A B} (p : Promise A) (onFulfilled : A → Completion B) : Promise B :=
  match p with
  | Fulfilled a =>
      match onFulfilled a with
      | Normal b => Fulfilled b
      | Throw x => Rejected x
      end
  | Rejected reason => Rejected reason
  | Pending => Pending
  end.

(** [p.catch(onRejected)] *)
Definition catch_ {A} (p : Promise A) (onRejected : value → Completion A) : Promise A :=
  match p with
  | Rejected reason =>
      match onRejected reason with
      | Normal a => Fulfilled a
      | Throw x => Rejected x
      end
  | settled => settled
  end.

(** An [AsyncBox] instance holds the promise of a Result. *)
Record AsyncBox : Type := new_AsyncBox { promise : Promise Result }.

Definition fromPromise (p : Promise value) (onError : value → Completion value) : AsyncBox :=
  new_AsyncBox
    (catch_ (then_ p (fun v => Normal (result.ok v)))
       (fun e =>
          match onError e with
          | Normal error => Normal (result.err error)
          | Throw x => Throw x
          end)).

Definition ok (v : value) : AsyncBox := new_AsyncBox (Fulfilled (result.ok v)).

Definition err (error : value) : AsyncBox := new_AsyncBox (Fulfilled (result.err error)).

Definition fail (tag : string) (props : option (gmap string value)) : AsyncBox :=
  err (VObj Object_prototype (spread {[ "_tag" := VStr tag ]} props)).

(** The argument of [wrap]: a function, or a [{ try, catch }] object. *)
Inductive WrapArgument : Type :=
  | WrapFunction (fn : unit → Completion (Promise value))
  | WrapConfig (try_ : unit → Completion (Promise value))
               (catch_ : value → Completion value).

Definition wrap `{Host} (fnOrConfig : WrapArgument) : Completion AsyncBox :=
  match fnOrConfig with
  | WrapFunction fn =>
      match fn tt with
      | Normal p => Normal (fromPromise p error.unknownError)
      | Throw x => Throw x
      end
  | WrapConfig try_ catch_ =>
      match try_ tt with
      | Normal p => Normal (fromPromise p catch_)
      | Throw x => Throw x
      end
  end.

Definition run (this : AsyncBox) : Promise Result := promise this.

(** [p.then(onFulfilled)] for a callback that returns a promise, which the
    result then follows; a callback that returns a plain value [b] is one
    that returns [Fulfilled b]. *)
Definition then_promise {A B} (p : Promise A)
    (onFulfilled : A → Completion (Promise B)) : Promise B :=
  match p with
  | Fulfilled a =>
      match onFulfilled a with
      | Normal q => q
      | Throw x => Rejected x
      end
  | Rejected reason => Rejected reason
  | Pending => Pending
  end.

Definition map (this : AsyncBox) (fn : value → Completion value) : AsyncBox :=
  new_AsyncBox
    (then_ (promise this)
       (fun r =>
          match r with
          | OkVariant v =>
              match fn v with
              | Normal u => Normal (result.ok u)
              | Throw x => Throw x
              end
          | ErrVariant _ => Normal r
          end)).

Definition mapErr (this : AsyncBox) (fn : value → Completion value) : AsyncBox :=
  new_AsyncBox
    (then_ (promise this)
       (fun r =>
          match r with
          | ErrVariant error =>
              match fn error with
              | Normal f => Normal (result.err f)
              | Throw x => Throw x
              end
          | OkVariant _ => Normal r
          end)).

(** [async (r) => { if (isOk(r)) { await fn(r.value); } return r; }]:
    [fn] returns nothing or a promise; the [async] function turns what [fn]
    throws into a rejection and waits for what it returns. *)
Definition tap (this : AsyncBox) (fn : value → Completion (Promise value)) : AsyncBox :=
  new_AsyncBox
    (then_promise (promise this)
       (fun r =>
          Normal
            match r with
            | OkVariant v =>
                match fn v with
                | Normal q => then_ q (fun _ => Normal r)
                | Throw x => Rejected x
                end
            | ErrVariant _ => Fulfilled r
            end)).

Definition tapErr (this : AsyncBox) (fn : value → Completion (Promise value)) : AsyncBox :=
  new_AsyncBox
    (then_promise (promise this)
       (fun r =>
          Normal
            match r with
            | ErrVariant error =>
                match fn error with
                | Normal q => then_ q (fun _ => Normal r)
                | Throw x => Rejected x
                end
            | OkVariant _ => Fulfilled r
            end)).

Definition flatMap (this : AsyncBox) (fn : value → Completion AsyncBox) : AsyncBox :=
  new_AsyncBox
    (then_promise (promise this)
       (fun r =>
          match r with
          | OkVariant v =>
              match fn v with
              | Normal next => Normal (run next)
              | Throw x => Throw x
              end
          | ErrVariant _ => Normal (Fulfilled r)
          end)).

Definition catchTag (this : AsyncBox) (tag : string)
    (handler : value → Completion AsyncBox) : AsyncBox :=
  new_AsyncBox
    (then_promise (promise this)
       (fun r =>
          match r with
          | ErrVariant error =>
              match get error "_tag" with
              | Normal t =>
                  if strict_eq_string t tag then
                    match handler error with
                    | Normal next => Normal (run next)
                    | Throw x => Throw x
                    end
                  else Normal (Fulfilled r)
              | Throw x => Throw x
              end
          | OkVariant _ => Normal (Fulfilled r)
          end)).

Definition catchAll (this : AsyncBox) (handler : value → Completion AsyncBox) : AsyncBox :=
  new_AsyncBox
    (then_promise (promise this)
       (fun r =>
          match r with
          | ErrVariant error =>
              match handler error with
              | Normal next => Normal (run next)
              | Throw x => Throw x
              end
          | OkVariant _ => Normal (Fulfilled r)
          end)).

(** The [async] methods: the body after [await this.promise] runs once the
    promise fulfils, and what it throws rejects the promise returned. *)
Definition match_ (this : AsyncBox) (handlers_ok handlers_err : value → Completion value)
    : Promise value :=
  then_ (promise this)
    (fun r =>
       match r with
       | OkVariant v => handlers_ok v
       | ErrVariant error => handlers_err error
       end).

Definition unwrapOr (this : AsyncBox) (defaultValue : value) : Promise value :=
  then_ (promise this)
    (fun r =>
       match r with
       | OkVariant v => Normal v
       | ErrVariant _ => Normal defaultValue
       end).

(** The handlers of [matchExhaustive] run in the world at hand when the
    promise fulfils. *)
Definition matchExhaustive `{Host} (this : AsyncBox)
    (config : gmap string (value → Eff value)) : World → Promise value * World :=
  fun w =>
    match promise this with
    | Fulfilled r =>
        match matcher.matchExhaustive r config w with
        | (Normal v, w') => (Fulfilled v, w')
        | (Throw x, w') => (Rejected x, w')
        end
    | Rejected reason => (Rejected reason, w)
    | Pending => (Pending, w)
    end.

End AsyncBox.

(** ** A host to evaluate examples in

    The theorems below hold for every host.  [reference_host] follows
    ECMAScript on the primitives and on the objects the examples build:
    plain objects and errors whose properties are primitives or such
    objects, none of them named [toString], [toJSON] or [name], and strings
    without control characters.  It serializes the properties of an object
    in the order the map enumerates them, and throws the TypeError of
    ECMAScript's SerializeJSONProperty when it meets a BigInt. *)
Module reference.

Definition quote (s : string) : string :=
  let escape (c : ascii) (rest : string) : string :=
    if Ascii.eqb c "034"%char then String "092"%char (String c rest)
    else if Ascii.eqb c "092"%char then String c (String c rest)
    else String c rest in
  String "034"%char
    (fold_right escape (String "034"%char EmptyString) (list_ascii_of_string s)).

Fixpoint stringify (v : value) : Completion (option string) :=
  match v with
  | VUndefined => Normal None
  | VNull => Normal (Some "null")
  | VBool true => Normal (Some "true")
  | VBool false => Normal (Some "false")
  | VNum z => Normal (Some (pretty z))
  | VBigInt _ => Throw (new_TypeError "Do not know how to serialize a BigInt")
  | VStr s => Normal (Some (quote s))
  | VObj p own =>
      let member key v' (members : Completion (list string)) :=
        if instanceof_Error (VObj p ∅) && String.eqb key "message" then members
        else
          match members, stringify v' with
          | Throw x, _ | Normal _, Throw x => Throw x
          | Normal members, Normal (Some json) =>
              Normal ((quote key ++ ":" ++ json) :: members)
          | Normal members, Normal None => Normal members
          end in
      match map_fold member (Normal []) own with
      | Normal members => Normal (Some ("{" ++ String.concat "," members ++ "}"))
      | Throw x => Throw x
      end
  end.

Definition object_to_string (p : proto) (own : gmap string value) : Completion string :=
  match own !! "toString" with
  | Some _ => Throw (new_TypeError "Cannot convert object to primitive value")
  | None =>
      match p with
      | Object_prototype => Normal "[object Object]"
      | Error_prototype | TypeError_prototype =>
          let name :=
            match p with TypeError_prototype => "TypeError" | _ => "Error" end in
          match own !! "message" with
          | Some (VStr message) =>
              if String.eqb message EmptyString then Normal name
              else Normal (name ++ ": " ++ message)
          | _ => Normal name
          end
      end
  end.

Definition object_prototype_call (member : string) (arg : value) : Completion value :=
  if String.eqb member "toString" then Normal (VStr "[object Undefined]")
  else if String.eqb member "constructor" then
    match arg with
    | VUndefined | VNull => Normal (VObj Object_prototype ∅)
    | _ => Normal arg
    end
  else Throw (new_TypeError (member ++ " called on undefined")).

#[export] Instance reference_host : Host := {|
  Number_toString := pretty;
  Object_ToString := object_to_string;
  JSON_stringify := stringify;
  Object_prototype_call := object_prototype_call;
  Object_prototype_toString := fun _ => eq_refl
|}.

(** The world before anything ran. *)
Definition w0 : World := mkWorld ∅ [].

(** Data of the scenarios of the specification. *)
Definition NotFound_123 : value :=
  VObj Object_prototype {[ "_tag" := VStr "NotFound"; "id" := VStr "123" ]}.

Definition resource_handlers : gmap string (value → value) :=
  {[ "ok" := fun v => v;
     "NotFound" := fun e =>
       match get e "id" with
       | Normal (VStr id) => VStr ("Resource " ++ id ++ " not found")
       | _ => VUndefined
       end ]}.

Definition tagged_ok : value := VObj Object_prototype {[ "_tag" := VStr "ok" ]}.

(** [x => x * 2], on numbers. *)
Definition double (x : value) : value :=
  match x with VNum z => VNum (z * 2) | _ => VUndefined end.

(** The world after [Box.ok(42)]. *)
Definition w_ok_42 : World := mkWorld {[ 0 := OkVariant (VNum 42) ]} [].

Definition Step1Failed : value :=
  VObj Object_prototype {[ "_tag" := VStr "Step1Failed" ]}.

(** The world after a first step returned [Box.fail("Step1Failed")]. *)
Definition w_step1 : World := mkWorld {[ 0 := ErrVariant Step1Failed ]} [].

(** A second step, and the handlers of scenario 6. *)
Definition step2 (v : value) : Eff loc := Box.ok (VStr "step 2 ran").

Definition step_handlers : gmap string (value → value) :=
  {[ "ok" := fun v => v;
     "Step1Failed" := fun _ => VStr "step 1 failed";
     "Step2Failed" := fun _ => VStr "step 2 failed" ]}.

(** Fields that carry a discriminant of their own. *)
Definition hijacking_props : gmap string value :=
  {[ "_tag" := VStr "Hijacked"; "id" := VStr "123" ]}.

(** The world after [Box.err({ _tag: "NotFound", id: "123" })]. *)
Definition w_not_found : World := mkWorld {[ 0 := ErrVariant NotFound_123 ]} [].

(** [Errors.BigIntError({ bigNum: 100n })], the variant the test suite of
    error.ts builds from a definition with a [t.bigint] field, and the world
    after [Box.err] of it. *)
Definition BigIntError_100 : value :=
  VObj Object_prototype {[ "_tag" := VStr "BigIntError"; "bigNum" := VBigInt 100 ]}.

Definition w_bigint : World := mkWorld {[ 0 := ErrVariant BigIntError_100 ]} [].

(** Definitions with one key, as [defineErrors({ NotFound: { id: t.string } })]
    has them. *)
Definition NotFound_definitions : gmap string (gmap string value) :=
  {[ "NotFound" := {[ "id" := VStr EmptyString ]} ]}.

End reference.
Import reference.

(** ** Vocabulary of the statements *)

(** The error carries the discriminant [T]. *)
Definition has_tag (error : value) (T : string) : Prop :=
  get error "_tag" = Normal (VStr T).

(** A table of handlers that only compute, each instrumented under the
    key it is registered at. *)
Definition spy_table (hs : gmap string (value → value))
    : gmap string (value → Eff value) :=
  map_imap (fun key h => Some (spy key (pure h))) hs.

(** [hs] has the [ok] entry and one handler for each tag of the union [U]. *)
Definition complete (U : gset string) (hs : gmap string (value → value)) : Prop :=
  "ok" ∈ dom hs ∧ U ⊆ dom hs.

(** The error of [r], if any, is a member of the union [U]. *)
Definition in_union (r : Result) (U : gset string) : Prop :=
  match r with
  | OkVariant _ => True
  | ErrVariant error => ∃ T, has_tag error T ∧ T ∈ U
  end.

(** The journal of [w] extended by [entries]. *)
Definition journal (w : World) (entries : list (string * value)) : World :=
  mkWorld (boxes w) (calls w ++ entries).

(** The object literal [{ _tag: tag, ...props }]. *)
Definition stamped (tag : string) (props : option (gmap string value)) : value :=
  VObj Object_prototype (spread {[ "_tag" := VStr tag ]} props).

(** The [_tag] of the error of [r], if any, can be read: the error is
    neither null nor undefined. *)
Definition discriminable (r : Result) : Prop :=
  match r with
  | OkVariant _ => True
  | ErrVariant error => ∃ t, get error "_tag" = Normal t
  end.

(** A callback that returns a value: it returns [f v], and whatever else
    it does, it leaves the instances that exist alone. *)
Definition computes (f : value → value) (fn : value → Eff value) : Prop :=
  ∀ v w, ∃ w', fn v w = (Normal (f v), w') ∧ boxes w ⊆ boxes w'.

(** A callback that returns a wrapper: the wrapper it returns for [v] holds
    [g v], and it leaves the instances that exist alone. *)
Definition builds (g : value → Result) (fn : value → Eff loc) : Prop :=
  ∀ v w, ∃ box w',
    fn v w = (Normal box, w') ∧ boxes w ⊆ boxes w' ∧ boxes w' !! box = Some (g v).

(** The transformation methods, each with its arguments. *)
Inductive method : Type :=
  | map_ (fn : value → Eff value)
  | mapErr_ (fn : value → Eff value)
  | flatMap_ (fn : value → Eff loc)
  | catchTag_ (tag : string) (handler : value → Eff loc)
  | catchAll_ (handler : value → Eff loc)
  | orElseTag_ (tag : string) (fallback : value).

Definition invoke (m : method) (this : loc) : Eff loc :=
  match m with
  | map_ fn => Box.map this fn
  | mapErr_ fn => Box.mapErr this fn
  | flatMap_ fn => Box.flatMap this fn
  | catchTag_ tag handler => Box.catchTag this tag handler
  | catchAll_ handler => Box.catchAll this handler
  | orElseTag_ tag fallback => Box.orElseTag this tag fallback
  end.

(** The arguments are callbacks of the two kinds above, and a tag-scoped
    method can read the [_tag] of the error its receiver holds, if any. *)
Definition admissible (m : method) (r : Result) : Prop :=
  match m with
  | map_ fn | mapErr_ fn => ∃ f, computes f fn
  | flatMap_ fn | catchAll_ fn => ∃ g, builds g fn
  | catchTag_ _ handler => (∃ g, builds g handler) ∧ discriminable r
  | orElseTag_ _ _ => discriminable r
  end.

(** Where the wrapper a method returns comes from. *)
Inductive origin : Type := Receiver | Fresh | FromCallback.

Definition has_tag_b (error : value) (tag : string) : bool :=
  match get error "_tag" with
  | Normal t => strict_eq_string t tag
  | Throw _ => false
  end.

Definition origin_of (m : method) (r : Result) : origin :=
  match m, r with
  | map_ _, _ | mapErr_ _, _ => Fresh
  | flatMap_ _, OkVariant _ => FromCallback
  | flatMap_ _, ErrVariant _ => Receiver
  | catchTag_ tag _, ErrVariant error =>
      if has_tag_b error tag then FromCallback else Receiver
  | catchTag_ _ _, OkVariant _ => Receiver
  | catchAll_ _, ErrVariant _ => FromCallback
  | catchAll_ _, OkVariant _ => Receiver
  | orElseTag_ tag _, ErrVariant error =>
      if has_tag_b error tag then Fresh else Receiver
  | orElseTag_ _ _, OkVariant _ => Receiver
  end.

(** The value or the error a Result carries. *)
Definition payload (r : Result) : value :=
  match r with OkVariant v => v | ErrVariant error => error end.

(** The callback among the arguments of a method that can return a wrapper. *)
Definition callback_of (m : method) : option (value → Eff loc) :=
  match m with
  | flatMap_ fn | catchTag_ _ fn | catchAll_ fn => Some fn
  | map_ _ | mapErr_ _ | orElseTag_ _ _ => None
  end.

(** The Result a constructor call wraps: [Box.ok(v)] or [Box.err(error)]. *)
Definition construct (r : Result) : Eff loc :=
  match r with
  | OkVariant v => Box.ok v
  | ErrVariant error => Box.err error
  end.

(** Both sides of a Result mapped. *)
Definition bimap (f g : value → value) (r : Result) : Result :=
  match r with
  | OkVariant v => OkVariant (f v)
  | ErrVariant error => ErrVariant (g error)
  end.

(** The asynchronous wrapper whose promise has fulfilled with [r]. *)
Definition settled (r : Result) : AsyncBox.AsyncBox :=
  AsyncBox.new_AsyncBox (AsyncBox.Fulfilled r).

(** The settlement that corresponds to a completion. *)
Definition settle {A} (c : Completion A) : AsyncBox.Promise A :=
  match c with
  | Normal a => AsyncBox.Fulfilled a
  | Throw x => AsyncBox.Rejected x
  end.

(** A transformation whose callbacks only compute: the same call written
    against [Box] and against [AsyncBox]. *)
Inductive transformation : Type :=
  | t_map (f : value → value)
  | t_mapErr (f : value → value)
  | t_flatMap (g : value → Result)
  | t_catchTag (tag : string) (g : value → Result)
  | t_catchAll (g : value → Result).

Definition on_Box (t : transformation) (this : loc) : Eff loc :=
  match t with
  | t_map f => Box.map this (pure f)
  | t_mapErr f => Box.mapErr this (pure f)
  | t_flatMap g => Box.flatMap this (fun v => construct (g v))
  | t_catchTag tag g => Box.catchTag this tag (fun error => construct (g error))
  | t_catchAll g => Box.catchAll this (fun error => construct (g error))
  end.

Definition on_AsyncBox (t : transformation) (this : AsyncBox.AsyncBox)
    : AsyncBox.AsyncBox :=
  match t with
  | t_map f => AsyncBox.map this (fun v => Normal (f v))
  | t_mapErr f => AsyncBox.mapErr this (fun error => Normal (f error))
  | t_flatMap g => AsyncBox.flatMap this (fun v => Normal (settled (g v)))
  | t_catchTag tag g =>
      AsyncBox.catchTag this tag (fun error => Normal (settled (g error)))
  | t_catchAll g => AsyncBox.catchAll this (fun error => Normal (settled (g error)))
  end.

(** A step of an asynchronous chain, with any callback. *)
Inductive step : Type :=
  | s_map (fn : value → Completion value)
  | s_mapErr (fn : value → Completion value)
  | s_tap (fn : value → Completion (AsyncBox.Promise value))
  | s_tapErr (fn : value → Completion (AsyncBox.Promise value))
  | s_flatMap (fn : value → Completion AsyncBox.AsyncBox)
  | s_catchTag (tag : string) (handler : value → Completion AsyncBox.AsyncBox)
  | s_catchAll (handler : value → Completion AsyncBox.AsyncBox).

Definition apply_step (this : AsyncBox.AsyncBox) (s : step) : AsyncBox.AsyncBox :=
  match s with
  | s_map fn => AsyncBox.map this fn
  | s_mapErr fn => AsyncBox.mapErr this fn
  | s_tap fn => AsyncBox.tap this fn
  | s_tapErr fn => AsyncBox.tapErr this fn
  | s_flatMap fn => AsyncBox.flatMap this fn
  | s_catchTag tag handler => AsyncBox.catchTag this tag handler
  | s_catchAll handler => AsyncBox.catchAll this handler
  end.

(** [this.s1(...).s2(...)...] *)
Definition chain (this : AsyncBox.AsyncBox) (steps : list step) : AsyncBox.AsyncBox :=
  foldl apply_step this steps.

(** * Properties *)

(** ** The host fragment and the Result container *)

Lemma isOk_OkVariant r : isOk r = true ↔ ∃ v, r = OkVariant v.
Proof. destruct r; cbn; split; eauto; try done; intros [? ?]; done. Qed.

Lemma isErr_ErrVariant r : isErr r = true ↔ ∃ error, r = ErrVariant error.
Proof. destruct r; cbn; split; eauto; try done; intros [? ?]; done. Qed.

Lemma isOk_isErr r : isOk r = negb (isErr r).
Proof. by destruct r. Qed.

Lemma has_tag_object error T :
  has_tag error T ↔ ∃ p own, error = VObj p own ∧ own !! "_tag" = Some (VStr T).
Proof.
  unfold has_tag. split.
  - destruct error as [| | b | z | n | s | p own]; cbn; try discriminate.
    destruct (own !! "_tag") as [t|] eqn:E; cbn; intros [= ->]; eauto.
  - intros (p & own & -> & E). cbn. by rewrite E.
Qed.

Lemma has_tag_unique error T1 T2 : has_tag error T1 → has_tag error T2 → T1 = T2.
Proof. unfold has_tag. congruence. Qed.

Lemma strict_eq_string_true v s : strict_eq_string v s = true ↔ v = VStr s.
Proof.
  destruct v; cbn; try (split; discriminate).
  rewrite String.eqb_eq. split; congruence.
Qed.

Lemma lookup_property_own {F} (obj : gmap string F) key f :
  obj !! key = Some f → lookup_property obj key = Own f.
Proof. unfold lookup_property. by intros ->. Qed.

Lemma lookup_property_undefined {F} (obj : gmap string F) key :
  obj !! key = None → key ∉ Object_prototype_members →
  lookup_property obj key = Undefined.
Proof. unfold lookup_property. intros -> ?. by rewrite bool_decide_eq_false_2. Qed.

Lemma lookup_property_inherited {F} (obj : gmap string F) key :
  obj !! key = None → key ∈ Object_prototype_members →
  lookup_property obj key = Inherited key.
Proof. unfold lookup_property. intros -> ?. by rewrite bool_decide_eq_true_2. Qed.

Lemma spy_table_lookup hs key :
  spy_table hs !! key = (fun h => spy key (pure h)) <$> hs !! key.
Proof. unfold spy_table. rewrite map_lookup_imap. by destruct (hs !! key). Qed.

Lemma spy_pure name f v w :
  spy name (pure f) v w = (Normal (f v), journal w [(name, v)]).
Proof. reflexivity. Qed.

(** ** The exhaustive matcher *)
Section matcher_facts.
Context `{Host}.
Implicit Types (config : gmap string (value → Eff value)) (w : World).

(** On a success the matcher is the call of the own [ok] entry. *)
Lemma matchExhaustive_ok config h v :
  config !! "ok" = Some h →
  matcher.matchExhaustive (OkVariant v) config = h v.
Proof. intros E. cbn. by rewrite (lookup_property_own _ _ _ E). Qed.

(** On a failure whose tag names an own entry it is the call of that entry. *)
Lemma matchExhaustive_err config h error T :
  has_tag error T → config !! T = Some h →
  matcher.matchExhaustive (ErrVariant error) config = h error.
Proof.
  intros Ht E. unfold matcher.matchExhaustive, bind, lift.
  rewrite Ht. cbn. by rewrite (lookup_property_own _ _ _ E).
Qed.

(** A tag that names neither an own entry nor a member of Object.prototype
    is reported by name. *)
Lemma matchExhaustive_unhandled config error T w :
  has_tag error T → config !! T = None → T ∉ Object_prototype_members →
  matcher.matchExhaustive (ErrVariant error) config w
  = (Throw (new_Error ("Unhandled error tag: " ++ T)), w).
Proof.
  intros Ht E Hm. unfold matcher.matchExhaustive, bind, lift.
  rewrite Ht. cbn. by rewrite (lookup_property_undefined _ _ E Hm).
Qed.

(** A tag that names no own entry but a member of Object.prototype makes
    the matcher call that member. *)
Lemma matchExhaustive_inherited config error T w :
  has_tag error T → config !! T = None → T ∈ Object_prototype_members →
  matcher.matchExhaustive (ErrVariant error) config w
  = (Object_prototype_call T error, w).
Proof.
  intros Ht E Hm. unfold matcher.matchExhaustive, bind, lift.
  rewrite Ht. cbn. by rewrite (lookup_property_inherited _ _ E Hm).
Qed.

End matcher_facts.

(** Scenario 5 of the specification: tag ["Z"], a table without ["Z"]. *)
Example matchExhaustive_unhandled_Z `{Host} (h : value → Eff value) w :
  matcher.matchExhaustive
    (err (VObj Object_prototype {[ "_tag" := VStr "Z" ]})) {[ "ok" := h ]} w
  = (Throw (new_Error "Unhandled error tag: Z"), w).
Proof.
  apply (matchExhaustive_unhandled _ _ "Z"); [done | done |].
  intros Hin. apply (bool_decide_eq_true_2 _) in Hin. vm_compute in Hin. discriminate Hin.
Qed.

(** C1.  Totality and dispatch: for every Result [r] and every table of
    handlers that has the [ok] entry and one handler for each tag of the
    error union of [r], [matchExhaustive] returns a value and does not
    throw.  The journal gains exactly one entry: on a success the [ok]
    handler applied to the value, on a failure with tag [T] the handler
    registered under [T] applied to the error object, tag and payload.  No
    other handler runs. *)
Theorem C1_matchExhaustive_total_dispatch `{Host} (U : gset string)
    (hs : gmap string (value → value)) (r : Result) (w : World) :
  complete U hs → in_union r U →
  ∃ key h arg,
    hs !! key = Some h
    ∧ matcher.matchExhaustive r (spy_table hs) w
      = (Normal (h arg), journal w [(key, arg)])
    ∧ match r with
      | OkVariant v => key = "ok" ∧ arg = v
      | ErrVariant error => has_tag error key ∧ arg = error
      end.
Proof.
  intros [Hok HU] Hr. destruct r as [v | error].
  - apply elem_of_dom in Hok as [h Hh].
    exists "ok", h, v. split; [done|]. split; [|done].
    rewrite (matchExhaustive_ok _ (spy "ok" (pure h))).
    + apply spy_pure.
    + by rewrite spy_table_lookup, Hh.
  - destruct Hr as (T & Ht & HT).
    apply HU, elem_of_dom in HT as [h Hh].
    exists T, h, error. split; [done|]. split; [|done].
    rewrite (matchExhaustive_err _ (spy T (pure h)) _ T Ht).
    + apply spy_pure.
    + by rewrite spy_table_lookup, Hh.
Qed.

Lemma C1_witness :
  complete {[ "NotFound" ]} resource_handlers
  ∧ in_union (err NotFound_123) {[ "NotFound" ]}
  ∧ matcher.matchExhaustive (err NotFound_123) (spy_table resource_handlers)
      w0
    = (Normal (VStr "Resource 123 not found"),
       journal w0 [("NotFound", NotFound_123)]).
Proof.
  assert (Hc : complete {[ "NotFound" ]} resource_handlers).
  { split; [apply elem_of_dom; by eexists|].
    intros T ->%elem_of_singleton. apply elem_of_dom. by eexists. }
  assert (Hu : in_union (err NotFound_123) {[ "NotFound" ]}).
  { exists "NotFound". split; [reflexivity | by apply elem_of_singleton]. }
  split; [exact Hc|]. split; [exact Hu|].
  destruct (C1_matchExhaustive_total_dispatch {[ "NotFound" ]} resource_handlers
              (err NotFound_123) w0 Hc Hu)
    as (key & h & arg & Hh & Hrun & Ht & ->).
  assert (key = "NotFound") as -> by (by apply (has_tag_unique NotFound_123)).
  rewrite Hrun. vm_compute in Hh. injection Hh as <-. reflexivity.
Defined.

(** C2, at a failing input: the tag ["toString"] has no handler in the table
    [{ ok }], yet no error naming the tag is thrown.  The lookup
    [config[error._tag]] finds Object.prototype.toString, which is truthy,
    and the matcher returns what that function returns. *)
Theorem C2_inherited_tag_not_reported `{Host} (h : value → Eff value) (w : World) :
  matcher.matchExhaustive
    (err (VObj Object_prototype {[ "_tag" := VStr "toString" ]}))
    {[ "ok" := h ]} w
  = (Normal (VStr "[object Undefined]"), w).
Proof.
  rewrite (matchExhaustive_inherited _ _ "toString"); [|done|done|].
  - by rewrite Object_prototype_toString.
  - apply (bool_decide_unpack _). vm_compute. exact I.
Qed.

(** C9.  A failure whose tag is the string ["ok"] is dispatched to the
    entry under ["ok"], the success handler, which receives the error object;
    the matcher then is that call and nothing else, so with handlers that
    only compute it returns the handler's result and throws nothing. *)
Theorem C9_tag_ok_runs_success_handler `{Host} (error : value) (w : World) :
  has_tag error "ok" →
  (∀ (config : gmap string (value → Eff value)) handler,
     config !! "ok" = Some handler →
     matcher.matchExhaustive (ErrVariant error) config w = handler error w)
  ∧ (∀ (hs : gmap string (value → value)) handler,
       hs !! "ok" = Some handler →
       matcher.matchExhaustive (ErrVariant error) (spy_table hs) w
       = (Normal (handler error), journal w [("ok", error)])).
Proof.
  intros Ht. split.
  - intros config handler E. by rewrite (matchExhaustive_err _ handler _ "ok").
  - intros hs handler E.
    rewrite (matchExhaustive_err _ (spy "ok" (pure handler)) _ "ok" Ht).
    + apply spy_pure.
    + by rewrite spy_table_lookup, E.
Qed.

Lemma C9_witness :
  has_tag tagged_ok "ok"
  ∧ matcher.matchExhaustive (ErrVariant tagged_ok)
      (spy_table {[ "ok" := fun _ => VStr "success" ]}) w0
    = (Normal (VStr "success"), journal w0 [("ok", tagged_ok)]).
Proof.
  split; [reflexivity|].
  refine (proj2 (C9_tag_ok_runs_success_handler tagged_ok w0 _)
            {[ "ok" := fun _ => VStr "success" ]} (fun _ => VStr "success") _);
    reflexivity.
Defined.

(** ** The synchronous wrapper *)
Section Box_facts.
Implicit Types (this box : loc) (r : Result) (w : World).

Lemma result_of_live this r w :
  boxes w !! this = Some r → Box.result_of this w = (Normal r, w).
Proof. unfold Box.result_of. by intros ->. Qed.

(** Read the receiver, whose contents the hypothesis [E] gives. *)
Local Ltac receiver E :=
  unfold Box.map, Box.mapErr, Box.flatMap, Box.catchTag, Box.catchAll,
    Box.orElseTag, Box.unwrapOr, Box.matchExhaustive;
  unfold bind at 1; rewrite (result_of_live _ _ _ E).

(** [new Box(r)] returns an instance that did not exist, holding [r], and
    leaves every other instance and the journal alone. *)
Lemma new_Box_spec r w :
  ∃ box,
    (box ∉ dom (boxes w))
    ∧ Box.new_Box r w = (Normal box, mkWorld (<[box := r]> (boxes w)) (calls w)).
Proof. exists (fresh (dom (boxes w))). split; [apply is_fresh | done]. Qed.

(** What each method is once the receiver's contents are known. *)
Lemma map_ok this v fn w :
  boxes w !! this = Some (OkVariant v) →
  Box.map this fn w = (let* u := fn v in Box.new_Box (ok u)) w.
Proof. intros E. by receiver E. Qed.

Lemma map_err this error fn w :
  boxes w !! this = Some (ErrVariant error) →
  Box.map this fn w = Box.new_Box (ErrVariant error) w.
Proof. intros E. by receiver E. Qed.

Lemma mapErr_err this error fn w :
  boxes w !! this = Some (ErrVariant error) →
  Box.mapErr this fn w = (let* f := fn error in Box.new_Box (err f)) w.
Proof. intros E. by receiver E. Qed.

Lemma mapErr_ok this v fn w :
  boxes w !! this = Some (OkVariant v) →
  Box.mapErr this fn w = Box.new_Box (OkVariant v) w.
Proof. intros E. by receiver E. Qed.

Lemma flatMap_ok this v fn w :
  boxes w !! this = Some (OkVariant v) → Box.flatMap this fn w = fn v w.
Proof. intros E. by receiver E. Qed.

Lemma flatMap_err this error fn w :
  boxes w !! this = Some (ErrVariant error) →
  Box.flatMap this fn w = (Normal this, w).
Proof. intros E. by receiver E. Qed.

Lemma catchTag_ok this v tag handler w :
  boxes w !! this = Some (OkVariant v) →
  Box.catchTag this tag handler w = (Normal this, w).
Proof. intros E. by receiver E. Qed.

Lemma catchTag_err this error t tag handler w :
  boxes w !! this = Some (ErrVariant error) →
  get error "_tag" = Normal t →
  Box.catchTag this tag handler w
  = if strict_eq_string t tag then handler error w else (Normal this, w).
Proof.
  intros E Ht. unfold Box.catchTag, bind, lift.
  rewrite (result_of_live _ _ _ E), Ht. by destruct (strict_eq_string t tag).
Qed.

Lemma catchAll_ok this v handler w :
  boxes w !! this = Some (OkVariant v) →
  Box.catchAll this handler w = (Normal this, w).
Proof. intros E. by receiver E. Qed.

Lemma catchAll_err this error handler w :
  boxes w !! this = Some (ErrVariant error) →
  Box.catchAll this handler w = handler error w.
Proof. intros E. by receiver E. Qed.

Lemma orElseTag_ok this v tag fallback w :
  boxes w !! this = Some (OkVariant v) →
  Box.orElseTag this tag fallback w = (Normal this, w).
Proof. intros E. by receiver E. Qed.

Lemma orElseTag_err this error t tag fallback w :
  boxes w !! this = Some (ErrVariant error) →
  get error "_tag" = Normal t →
  Box.orElseTag this tag fallback w
  = if strict_eq_string t tag then Box.ok fallback w else (Normal this, w).
Proof.
  intros E Ht. unfold Box.orElseTag, bind, lift.
  rewrite (result_of_live _ _ _ E), Ht. by destruct (strict_eq_string t tag).
Qed.

Lemma unwrapOr_spec this r defaultValue w :
  boxes w !! this = Some r →
  Box.unwrapOr this defaultValue w
  = (Normal match r with OkVariant v => v | ErrVariant _ => defaultValue end, w).
Proof.
  intros E. unfold Box.unwrapOr, bind. rewrite (result_of_live _ _ _ E).
  by destruct r.
Qed.

Lemma Box_matchExhaustive_live `{Host} this r config w :
  boxes w !! this = Some r →
  Box.matchExhaustive this config w = matcher.matchExhaustive r config w.
Proof. intros E. by receiver E. Qed.

End Box_facts.

(** The example worlds are what the constructors produce. *)
Example Box_ok_42 : Box.ok (VNum 42) w0 = (Normal 0, w_ok_42).
Proof. vm_compute. reflexivity. Qed.

Example Box_fail_Step1Failed : Box.fail "Step1Failed" None w0 = (Normal 0, w_step1).
Proof. vm_compute. reflexivity. Qed.

Example Box_err_NotFound : Box.err NotFound_123 w0 = (Normal 0, w_not_found).
Proof. vm_compute. reflexivity. Qed.

(** C3.  [map(fn)] on a wrapper holding Success([v]) calls [fn] once, with
    [v], and returns a new wrapper holding Success([fn v]); on a wrapper
    holding a Failure it does not call [fn], and the new wrapper holds the
    same Failure with the same error. *)
Theorem C3_map_calls_fn_once (this : loc) (r : Result) (name : string)
    (f : value → value) (w : World) :
  boxes w !! this = Some r →
  ∃ box,
    (box ∉ dom (boxes w))
    ∧ Box.map this (spy name (pure f)) w
      = (Normal box,
         match r with
         | OkVariant v =>
             mkWorld (<[box := OkVariant (f v)]> (boxes w)) (calls w ++ [(name, v)])
         | ErrVariant error =>
             mkWorld (<[box := ErrVariant error]> (boxes w)) (calls w)
         end).
Proof.
  intros E. exists (fresh (dom (boxes w))). split; [apply is_fresh|].
  destruct r as [v | error].
  - rewrite (map_ok _ _ _ _ E). unfold bind. by rewrite spy_pure.
  - by rewrite (map_err _ _ _ _ E).
Qed.

Lemma C3_witness :
  boxes w_ok_42 !! 0 = Some (OkVariant (VNum 42))
  ∧ ∃ box,
      (box ∉ dom (boxes w_ok_42))
      ∧ Box.map 0 (spy "double" (pure double)) w_ok_42
        = (Normal box,
           mkWorld (<[box := OkVariant (VNum 84)]> (boxes w_ok_42))
             [("double", VNum 42)]).
Proof.
  split; [reflexivity|].
  exact (C3_map_calls_fn_once 0 (OkVariant (VNum 42)) "double" double w_ok_42 eq_refl).
Defined.

(** Scenario 1: [Box.ok(42).map(x => x * 2).unwrapOr(0)] is 84, after one
    call of the function. *)
Example scenario_1 :
  (let* b := Box.ok (VNum 42) in
   let* b' := Box.map b (spy "double" (pure double)) in
   Box.unwrapOr b' (VNum 0)) w0
  = (Normal (VNum 84),
     mkWorld {[ 0 := OkVariant (VNum 42); 1 := OkVariant (VNum 84) ]}
       [("double", VNum 42)]).
Proof. vm_compute. reflexivity. Qed.

(** C4.  [flatMap(fn)] on a wrapper holding Success([v]) is the call
    [fn(v)]: its effects are those of that call and its result is the
    wrapper [fn] returned.  On a wrapper holding a Failure it returns the
    receiver with the world untouched, so [fn] did not run and the Failure
    is the same; matching the chain then runs the first step's handler on
    the first step's error and nothing else. *)
Theorem C4_flatMap_short_circuit `{Host} (this : loc) (r : Result)
    (fn : value → Eff loc) (w : World) :
  boxes w !! this = Some r →
  match r with
  | OkVariant v => Box.flatMap this fn w = fn v w
  | ErrVariant error =>
      Box.flatMap this fn w = (Normal this, w)
      ∧ ∀ T (hs : gmap string (value → value)) h,
          has_tag error T → hs !! T = Some h →
          (let* next := Box.flatMap this fn in
           Box.matchExhaustive next (spy_table hs)) w
          = (Normal (h error), journal w [(T, error)])
  end.
Proof.
  intros E. destruct r as [v | error].
  - by apply flatMap_ok.
  - split; [by apply (flatMap_err _ error)|].
    intros T hs h Ht Hh. unfold bind at 1.
    rewrite (flatMap_err _ _ _ _ E), (Box_matchExhaustive_live _ _ _ _ E).
    rewrite (matchExhaustive_err _ (spy T (pure h)) _ T Ht).
    + apply spy_pure.
    + by rewrite spy_table_lookup, Hh.
Qed.

(** Scenario 6: the first step failed with ["Step1Failed"]. *)
Lemma C4_witness :
  boxes w_step1 !! 0 = Some (ErrVariant Step1Failed)
  ∧ Box.flatMap 0 (spy "step2" step2) w_step1 = (Normal 0, w_step1)
  ∧ (let* next := Box.flatMap 0 (spy "step2" step2) in
     Box.matchExhaustive next (spy_table step_handlers)) w_step1
    = (Normal (VStr "step 1 failed"), journal w_step1 [("Step1Failed", Step1Failed)]).
Proof.
  split; [reflexivity|].
  pose proof (C4_flatMap_short_circuit 0 (ErrVariant Step1Failed)
                (spy "step2" step2) w_step1 eq_refl) as [Hsame Hchain].
  split; [exact Hsame|].
  exact (Hchain "Step1Failed" step_handlers (fun _ => VStr "step 1 failed")
           eq_refl eq_refl).
Defined.

(** C5.  [catchTag(tag, handler)] on a Failure whose discriminant equals
    [tag] is the call of [handler] on that error, and returns the wrapper
    [handler] returned; on a Success, and on a Failure with another tag, it
    returns the receiver with the world untouched, so [handler] did not run.
    Scenario 3: [Box.err({ _tag: "NotFound", id: "123" })] through
    [catchTag("NotFound", _ => Box.ok(0))] and [unwrapOr(-1)] gives 0. *)
Theorem C5_catchTag_recovers_matching_tag :
  (∀ (this : loc) (r : Result) (tag : string) (handler : value → Eff loc)
     (w : World),
     boxes w !! this = Some r →
     match r with
     | OkVariant _ => Box.catchTag this tag handler w = (Normal this, w)
     | ErrVariant error =>
         ∀ T, has_tag error T →
           Box.catchTag this tag handler w
           = if decide (T = tag) then handler error w else (Normal this, w)
     end)
  ∧ fst ((let* b := Box.err NotFound_123 in
          let* b' := Box.catchTag b "NotFound" (fun _ => Box.ok (VNum 0)) in
          Box.unwrapOr b' (VNum (-1))) w0)
    = Normal (VNum 0).
Proof.
  split; [|vm_compute; reflexivity].
  intros this r tag handler w E. destruct r as [v | error].
  - by apply (catchTag_ok _ v).
  - intros T Ht. rewrite (catchTag_err _ _ _ _ _ _ E Ht). cbn.
    destruct (decide (T = tag)) as [-> | Hne].
    + by rewrite String.eqb_refl.
    + by apply String.eqb_neq in Hne as ->.
Qed.

Lemma C5_witness :
  boxes w_not_found !! 0 = Some (ErrVariant NotFound_123)
  ∧ has_tag NotFound_123 "NotFound"
  ∧ Box.catchTag 0 "NotFound" (fun _ => Box.ok (VNum 0)) w_not_found
    = Box.ok (VNum 0) w_not_found
  ∧ Box.catchTag 0 "Unauthorized" (fun _ => Box.ok (VNum 0)) w_not_found
    = (Normal 0, w_not_found).
Proof.
  split; [reflexivity|]. split; [reflexivity|].
  split.
  - exact (proj1 C5_catchTag_recovers_matching_tag 0 (ErrVariant NotFound_123)
             "NotFound" (fun _ => Box.ok (VNum 0)) w_not_found eq_refl
             "NotFound" eq_refl).
  - exact (proj1 C5_catchTag_recovers_matching_tag 0 (ErrVariant NotFound_123)
             "Unauthorized" (fun _ => Box.ok (VNum 0)) w_not_found eq_refl
             "NotFound" eq_refl).
Defined.

(** [unwrap()] on a wrapper holding Success([v]) returns [v].  On a wrapper
    holding a Failure it never returns: it throws, and when [JSON.stringify]
    gives the serialization of the error, what it throws is an [Error] whose
    message is ["Unwrap called on Err: "] followed by that serialization. *)
Lemma unwrap_spec `{Host} (this : loc) (r : Result) (w : World) :
  boxes w !! this = Some r →
  match r with
  | OkVariant v => Box.unwrap this w = (Normal v, w)
  | ErrVariant error =>
      (∃ x, Box.unwrap this w = (Throw x, w))
      ∧ ∀ json, JSON_stringify error = Normal json →
          Box.unwrap this w
          = (Throw (new_Error ("Unwrap called on Err: " ++ default "undefined" json)), w)
  end.
Proof.
  intros E. unfold Box.unwrap, bind, lift. rewrite (result_of_live _ _ _ E).
  destruct r as [v | error]; [done|].
  split.
  - destruct (JSON_stringify error); eauto.
  - by intros json ->.
Qed.

Example unwrap_NotFound :
  Box.unwrap 0 w_not_found
  = (Throw (new_Error ("Unwrap called on Err: {" ++ quote "_tag" ++ ":"
                         ++ quote "NotFound" ++ "," ++ quote "id" ++ ":"
                         ++ quote "123" ++ "}")),
     w_not_found).
Proof.
  refine (proj2 (unwrap_spec 0 (ErrVariant NotFound_123) w_not_found eq_refl)
            (Some ("{" ++ quote "_tag" ++ ":" ++ quote "NotFound" ++ ","
                     ++ quote "id" ++ ":" ++ quote "123" ++ "}")) _).
  vm_compute. reflexivity.
Qed.

(** C6, at a failing input: a Failure whose error [JSON.stringify] cannot
    serialize, such as a variant with a BigInt field.  [JSON.stringify]
    throws while the message is being built, so the [Error] of [unwrap] is
    never made: what [unwrap()] throws is what [JSON.stringify] threw, and no
    message carries the error. *)
Theorem C6_unwrap_throws_what_stringify_throws `{Host}
    (this : loc) (error x : value) (w : World) :
  boxes w !! this = Some (ErrVariant error) →
  JSON_stringify error = Throw x →
  Box.unwrap this w = (Throw x, w).
Proof.
  intros E Hjson. unfold Box.unwrap, bind, lift.
  by rewrite (result_of_live _ _ _ E), Hjson.
Qed.

Lemma C6_witness :
  boxes w_bigint !! 0 = Some (ErrVariant BigIntError_100)
  ∧ JSON_stringify BigIntError_100
    = Throw (new_TypeError "Do not know how to serialize a BigInt")
  ∧ Box.unwrap 0 w_bigint
    = (Throw (new_TypeError "Do not know how to serialize a BigInt"), w_bigint).
Proof.
  split; [reflexivity|]. split; [vm_compute; reflexivity|].
  apply (C6_unwrap_throws_what_stringify_throws 0 BigIntError_100); [reflexivity|].
  vm_compute. reflexivity.
Defined.

(** ** Instances are never changed *)

Lemma new_Box_extends r w :
  ∃ box,
    Box.new_Box r w = (Normal box, mkWorld (<[box := r]> (boxes w)) (calls w))
    ∧ (box ∉ dom (boxes w))
    ∧ boxes w ⊆ <[box := r]> (boxes w).
Proof.
  exists (fresh (dom (boxes w))). split; [done|].
  pose proof (is_fresh (dom (boxes w))) as Hf. split; [done|].
  apply insert_subseteq. by apply not_elem_of_dom.
Qed.

(** The test [error._tag === tag] on an error whose [_tag] reads [t]. *)
Lemma has_tag_b_read error t tag :
  get error "_tag" = Normal t → has_tag_b error tag = strict_eq_string t tag.
Proof. unfold has_tag_b. by intros ->. Qed.

(** One call: the wrapper returned holds contents that depend on the method
    and on the contents of the receiver only, every instance that existed is
    as it was, and the wrapper comes from where [origin_of] says. *)
Lemma invoke_once (m : method) (r : Result) :
  admissible m r →
  ∃ r', ∀ this w,
    boxes w !! this = Some r →
    ∃ box w1,
      invoke m this w = (Normal box, w1)
      ∧ boxes w ⊆ boxes w1
      ∧ boxes w1 !! box = Some r'
      ∧ match origin_of m r with
        | Receiver => box = this ∧ w1 = w
        | Fresh => box ∉ dom (boxes w)
        | FromCallback =>
            ∃ callback,
              callback_of m = Some callback
              ∧ callback (payload r) w = (Normal box, w1)
        end.
Proof.
  intros Hadm.
  destruct m as [fn | fn | fn | tag handler | handler | tag fallback];
    destruct r as [v | error]; cbn [admissible origin_of invoke callback_of payload] in *.
  - (* map, Success *)
    destruct Hadm as [f Hf]. exists (OkVariant (f v)). intros this w E.
    rewrite (map_ok _ _ _ _ E). unfold bind.
    destruct (Hf v w) as (w' & -> & Hsub).
    destruct (new_Box_extends (ok (f v)) w') as (box & -> & Hfresh & Hext).
    exists box, (mkWorld (<[box := ok (f v)]> (boxes w')) (calls w')). cbn.
    split; [done|]. split; [by etrans|]. split; [by rewrite lookup_insert_eq|].
    intros Hin. apply Hfresh. by apply (subseteq_dom _ _ Hsub).
  - (* map, Failure *)
    exists (ErrVariant error). intros this w E. rewrite (map_err _ _ _ _ E).
    destruct (new_Box_extends (ErrVariant error) w) as (box & -> & Hfresh & Hext).
    eexists _, _. split; [done|]. cbn. by rewrite lookup_insert_eq.
  - (* mapErr, Success *)
    exists (OkVariant v). intros this w E. rewrite (mapErr_ok _ _ _ _ E).
    destruct (new_Box_extends (OkVariant v) w) as (box & -> & Hfresh & Hext).
    eexists _, _. split; [done|]. cbn. by rewrite lookup_insert_eq.
  - (* mapErr, Failure *)
    destruct Hadm as [f Hf]. exists (ErrVariant (f error)). intros this w E.
    rewrite (mapErr_err _ _ _ _ E). unfold bind.
    destruct (Hf error w) as (w' & -> & Hsub).
    destruct (new_Box_extends (err (f error)) w') as (box & -> & Hfresh & Hext).
    exists box, (mkWorld (<[box := err (f error)]> (boxes w')) (calls w')). cbn.
    split; [done|]. split; [by etrans|]. split; [by rewrite lookup_insert_eq|].
    intros Hin. apply Hfresh. by apply (subseteq_dom _ _ Hsub).
  - (* flatMap, Success *)
    destruct Hadm as [g Hg]. exists (g v). intros this w E.
    rewrite (flatMap_ok _ _ _ _ E).
    destruct (Hg v w) as (box & w' & Hfn & Hsub & Hbox). rewrite Hfn.
    exists box, w'. eauto 6.
  - (* flatMap, Failure *)
    exists (ErrVariant error). intros this w E. rewrite (flatMap_err _ _ _ _ E).
    by exists this, w.
  - (* catchTag, Success *)
    exists (OkVariant v). intros this w E. rewrite (catchTag_ok _ _ _ _ _ E).
    by exists this, w.
  - (* catchTag, Failure *)
    destruct Hadm as [[g Hg] [t Ht]].
    rewrite (has_tag_b_read _ _ tag Ht).
    exists (if strict_eq_string t tag then g error else ErrVariant error).
    intros this w E.
    rewrite (catchTag_err _ _ t _ _ _ E Ht).
    destruct (strict_eq_string t tag).
    + destruct (Hg error w) as (box & w' & Hfn & Hsub & Hbox). rewrite Hfn.
      exists box, w'. eauto 6.
    + by exists this, w.
  - (* catchAll, Success *)
    exists (OkVariant v). intros this w E. rewrite (catchAll_ok _ _ _ _ E).
    by exists this, w.
  - (* catchAll, Failure *)
    destruct Hadm as [g Hg]. exists (g error). intros this w E.
    rewrite (catchAll_err _ _ _ _ E).
    destruct (Hg error w) as (box & w' & Hfn & Hsub & Hbox). rewrite Hfn.
    exists box, w'. eauto 6.
  - (* orElseTag, Success *)
    exists (OkVariant v). intros this w E. rewrite (orElseTag_ok _ _ _ _ _ E).
    by exists this, w.
  - (* orElseTag, Failure *)
    destruct Hadm as [t Ht]. rewrite (has_tag_b_read _ _ tag Ht).
    exists (if strict_eq_string t tag then OkVariant fallback else ErrVariant error).
    intros this w E.
    rewrite (orElseTag_err _ _ t _ _ _ E Ht).
    destruct (strict_eq_string t tag).
    + change (Box.ok fallback w) with (Box.new_Box (OkVariant fallback) w).
      destruct (new_Box_extends (OkVariant fallback) w) as (box & -> & Hfresh & Hext).
      exists box, (mkWorld (<[box := OkVariant fallback]> (boxes w)) (calls w)).
      split; [done|]. cbn. by rewrite lookup_insert_eq.
    + by exists this, w.
Qed.

Lemma computes_pure f : computes f (pure f).
Proof. intros v w. by exists w. Qed.

Lemma builds_new_Box g : builds g (fun v => Box.new_Box (g v)).
Proof.
  intros v w. destruct (new_Box_extends (g v) w) as (box & -> & Hfresh & Hext).
  eexists _, _. split; [done|]. cbn. by rewrite lookup_insert_eq.
Qed.

(** C8, as the code has it.  A transformation method never changes an
    instance that exists: after the call, and after calling it again with
    the same arguments, the receiver holds what it held, and the two wrappers
    returned hold equal contents.  [map] and [mapErr] always return a new
    instance, and so does [orElseTag] when the tag matches; [flatMap],
    [catchTag], [catchAll] and [orElseTag] return the receiver itself when
    they pass it through, and nothing else happens; [flatMap], [catchTag] and
    [catchAll] otherwise are the call of their callback on what the receiver
    holds: they return the very wrapper the callback returned and do nothing
    after it. *)
Theorem C8_methods_never_mutate (m : method) (this : loc) (r : Result) (w : World) :
  boxes w !! this = Some r → admissible m r →
  ∃ box1 w1 box2 w2,
    invoke m this w = (Normal box1, w1)
    ∧ invoke m this w1 = (Normal box2, w2)
    ∧ boxes w ⊆ boxes w1 ∧ boxes w1 ⊆ boxes w2
    ∧ boxes w1 !! this = Some r ∧ boxes w2 !! this = Some r
    ∧ (∃ r', boxes w2 !! box1 = Some r' ∧ boxes w2 !! box2 = Some r')
    ∧ match origin_of m r with
      | Receiver => box1 = this ∧ w1 = w ∧ box2 = this ∧ w2 = w
      | Fresh => (box1 ∉ dom (boxes w)) ∧ (box2 ∉ dom (boxes w1))
      | FromCallback =>
          ∃ callback,
            callback_of m = Some callback
            ∧ callback (payload r) w = (Normal box1, w1)
            ∧ callback (payload r) w1 = (Normal box2, w2)
      end.
Proof.
  intros E Hadm. destruct (invoke_once m r Hadm) as [r' Hcall].
  destruct (Hcall this w E) as (box1 & w1 & Hrun1 & Hsub1 & Hbox1 & Horigin1).
  pose proof (lookup_weaken _ _ _ _ E Hsub1) as E1.
  destruct (Hcall this w1 E1) as (box2 & w2 & Hrun2 & Hsub2 & Hbox2 & Horigin2).
  exists box1, w1, box2, w2.
  split; [done|]. split; [done|]. split; [done|]. split; [done|].
  split; [done|]. split; [by apply (lookup_weaken _ _ _ _ E1)|].
  split.
  - exists r'. split; [by apply (lookup_weaken _ _ _ _ Hbox1)|done].
  - destruct (origin_of m r).
    + destruct Horigin1 as [-> ->]. by destruct Horigin2 as [-> ->].
    + done.
    + destruct Horigin1 as (callback & Hcb & Hfn1).
      destruct Horigin2 as (callback' & Hcb' & Hfn2).
      exists callback. split; [done|]. split; [done|]. congruence.
Qed.

(** C8, as stated, fails: [flatMap] on a wrapper holding a Failure returns
    the receiver, an instance that existed before the call. *)
Lemma C8_counterexample :
  boxes w_step1 !! 0 = Some (ErrVariant Step1Failed)
  ∧ Box.flatMap 0 step2 w_step1 = (Normal 0, w_step1)
  ∧ 0 ∈ dom (boxes w_step1).
Proof.
  split; [reflexivity|]. split; [reflexivity|]. apply elem_of_dom. by eexists.
Defined.

Lemma C8_witness :
  boxes w_not_found !! 0 = Some (ErrVariant NotFound_123)
  ∧ admissible (catchTag_ "NotFound" (fun _ => Box.ok (VNum 0))) (ErrVariant NotFound_123)
  ∧ ∃ box1 w1 box2 w2,
      Box.catchTag 0 "NotFound" (fun _ => Box.ok (VNum 0)) w_not_found = (Normal box1, w1)
      ∧ Box.catchTag 0 "NotFound" (fun _ => Box.ok (VNum 0)) w1 = (Normal box2, w2)
      ∧ boxes w_not_found ⊆ boxes w1 ∧ boxes w1 ⊆ boxes w2
      ∧ boxes w1 !! 0 = Some (ErrVariant NotFound_123)
      ∧ boxes w2 !! 0 = Some (ErrVariant NotFound_123)
      ∧ (∃ r', boxes w2 !! box1 = Some r' ∧ boxes w2 !! box2 = Some r')
      ∧ ∃ callback,
          Some (fun _ : value => Box.ok (VNum 0)) = Some callback
          ∧ callback NotFound_123 w_not_found = (Normal box1, w1)
          ∧ callback NotFound_123 w1 = (Normal box2, w2).
Proof.
  assert (Hadm : admissible (catchTag_ "NotFound" (fun _ => Box.ok (VNum 0)))
                   (ErrVariant NotFound_123)).
  { split; [|by exists (VStr "NotFound")].
    exists (fun _ => ok (VNum 0)). exact (builds_new_Box (fun _ => ok (VNum 0))). }
  split; [reflexivity|]. split; [exact Hadm|].
  exact (C8_methods_never_mutate (catchTag_ "NotFound" (fun _ => Box.ok (VNum 0)))
           0 (ErrVariant NotFound_123) w_not_found eq_refl Hadm).
Defined.

(** ** Tagged-variant constructors *)

(** Every key of the definitions gets a constructor that stamps that key. *)
Lemma defineErrors_lookup {D} (definitions : gmap string D) (tag : string) :
  error.defineErrors definitions !! tag
  = (fun _ => stamped tag) <$> definitions !! tag.
Proof.
  unfold error.defineErrors.
  apply (map_fold_weak_ind
           (fun result (defs : gmap string D) =>
              result !! tag = (fun _ => stamped tag) <$> defs !! tag)).
  - by rewrite !lookup_empty.
  - intros key d defs result Hfresh IH.
    destruct (decide (key = tag)) as [-> | Hne].
    + by rewrite !lookup_insert_eq.
    + by rewrite !lookup_insert_ne.
Qed.

(** The literal, when the fields carry no discriminant and when they do. *)
Lemma stamped_without_tag tag fields :
  fields !! "_tag" = None →
  stamped tag (Some fields) = VObj Object_prototype (<["_tag" := VStr tag]> fields).
Proof.
  intros Hnone. unfold stamped, spread. f_equal.
  apply map_eq. intros key. rewrite lookup_union.
  destruct (decide (key = "_tag")) as [-> | Hne].
  - by rewrite Hnone, lookup_insert_eq, lookup_singleton_eq.
  - rewrite lookup_insert_ne, lookup_singleton_ne by done.
    by destruct (fields !! key).
Qed.

Lemma stamped_with_tag tag fields t :
  fields !! "_tag" = Some t → get (stamped tag (Some fields)) "_tag" = Normal t.
Proof.
  intros Hsome. cbn. by rewrite lookup_union, Hsome, lookup_singleton_eq.
Qed.

(** A given field is an own property of the literal. *)
Lemma stamped_fields tag fields key v :
  key ≠ "_tag" → fields !! key = Some v →
  get (stamped tag (Some fields)) key = Normal v.
Proof.
  intros Hne Hv. cbn. by rewrite lookup_union, Hv, lookup_singleton_ne.
Qed.

(** C10.  [Box.fail(tag, props)], [AsyncBox.fail(tag, props)] and the
    constructor [defineErrors] produces for the key [tag], which exists for
    every key of the definitions, build the object [{ _tag: tag, ...props }].
    When [props] has no property named ["_tag"] that object is the given
    fields together with the discriminant [tag]; when [props] has one, its
    value replaces the stamped discriminant: the [_tag] of the variant is
    [props._tag], whatever [tag] was. *)
Theorem C10_props_tag_overrides_stamp (tag : string)
    (props : option (gmap string value)) :
  (∀ w, ∃ box,
     (box ∉ dom (boxes w))
     ∧ Box.fail tag props w
       = (Normal box,
          mkWorld (<[box := ErrVariant (stamped tag props)]> (boxes w)) (calls w)))
  ∧ AsyncBox.run (AsyncBox.fail tag props) = AsyncBox.Fulfilled (ErrVariant (stamped tag props))
  ∧ (∀ D (definitions : gmap string D) definition,
       definitions !! tag = Some definition →
       ∃ constructor,
         error.defineErrors definitions !! tag = Some constructor
         ∧ constructor props = stamped tag props)
  ∧ (∀ D (definitions : gmap string D) constructor,
       error.defineErrors definitions !! tag = Some constructor →
       constructor props = stamped tag props)
  ∧ (props = None → stamped tag props = VObj Object_prototype {[ "_tag" := VStr tag ]})
  ∧ (∀ fields, props = Some fields → fields !! "_tag" = None →
       stamped tag props = VObj Object_prototype (<["_tag" := VStr tag]> fields))
  ∧ (∀ fields t, props = Some fields → fields !! "_tag" = Some t →
       get (stamped tag props) "_tag" = Normal t).
Proof.
  split; [|split; [|split; [|split; [|split; [|split]]]]].
  - intros w. apply new_Box_spec.
  - reflexivity.
  - intros D definitions definition Hdef. exists (stamped tag).
    by rewrite defineErrors_lookup, Hdef.
  - intros D definitions constructor. rewrite defineErrors_lookup.
    destruct (definitions !! tag); cbn; [|done]. by intros [= <-].
  - by intros ->.
  - intros fields -> Hnone. by apply stamped_without_tag.
  - intros fields t -> Hsome. by apply stamped_with_tag.
Qed.

Lemma C10_witness :
  hijacking_props !! "_tag" = Some (VStr "Hijacked")
  ∧ (∃ constructor,
       error.defineErrors NotFound_definitions !! "NotFound" = Some constructor
       ∧ constructor (Some hijacking_props) = VObj Object_prototype hijacking_props
       ∧ get (constructor (Some hijacking_props)) "_tag" = Normal (VStr "Hijacked"))
  ∧ (∃ box,
       Box.fail "NotFound" (Some hijacking_props) w0
       = (Normal box,
          mkWorld (<[box := ErrVariant (VObj Object_prototype hijacking_props)]> ∅) []))
  ∧ AsyncBox.run (AsyncBox.fail "NotFound" (Some hijacking_props))
    = AsyncBox.Fulfilled (ErrVariant (VObj Object_prototype hijacking_props)).
Proof.
  assert (Hstamp : stamped "NotFound" (Some hijacking_props)
                   = VObj Object_prototype hijacking_props)
    by (vm_compute; reflexivity).
  split; [reflexivity|].
  pose proof (C10_props_tag_overrides_stamp "NotFound" (Some hijacking_props))
    as (Hbox & Hasync & Hdefined & _ & _ & _ & Hover).
  split; [|split].
  - destruct (Hdefined _ NotFound_definitions {[ "id" := VStr EmptyString ]} eq_refl)
      as (constructor & Hlookup & Hcall).
    exists constructor. split; [exact Hlookup|]. rewrite Hcall.
    split; [exact Hstamp|].
    exact (Hover hijacking_props (VStr "Hijacked") eq_refl eq_refl).
  - destruct (Hbox w0) as (box & _ & Hfail). exists box.
    rewrite Hfail, Hstamp. reflexivity.
  - rewrite Hasync, Hstamp. reflexivity.
Defined.

(** ** The asynchronous wrapper *)
Section AsyncBox_facts.
Context `{Host}.
Import AsyncBox.

(** A promise that fulfils gives a Success. *)
Lemma fromPromise_fulfilled v onError :
  run (fromPromise (Fulfilled v) onError) = Fulfilled (OkVariant v).
Proof. reflexivity. Qed.

(** A promise that rejects gives the Failure [onError] maps the reason to,
    when [onError] returns. *)
Lemma fromPromise_rejected reason onError error :
  onError reason = Normal error →
  run (fromPromise (Rejected reason) onError) = Fulfilled (ErrVariant error).
Proof. cbn. by intros ->. Qed.

(** When [onError] throws, the promise of the wrapper rejects. *)
Lemma fromPromise_rejected_throw reason onError x :
  onError reason = Throw x →
  run (fromPromise (Rejected reason) onError) = Rejected x.
Proof. cbn. by intros ->. Qed.

(** A promise that never settles leaves the wrapper pending. *)
Lemma fromPromise_pending onError :
  run (fromPromise Pending onError) = Pending.
Proof. reflexivity. Qed.

(** [wrap] on a function that returns a promise. *)
Lemma wrap_function_returns fn p :
  fn tt = Normal p →
  wrap (WrapFunction fn) = Normal (fromPromise p error.unknownError).
Proof. cbn. by intros ->. Qed.

Lemma wrap_config_returns try_ catch_ p :
  try_ tt = Normal p →
  wrap (WrapConfig try_ catch_) = Normal (fromPromise p catch_).
Proof. cbn. by intros ->. Qed.

(** The reserved variant for an [Error] instance and for any other value. *)
Lemma unknownError_of_Error p own :
  instanceof_Error (VObj p own) = true →
  error.unknownError (VObj p own)
  = Normal (VObj Object_prototype
              (<["message" := default (VStr EmptyString) (own !! "message")]>
                 (<["cause" := VObj p own]> {[ "_tag" := VStr "UnknownError" ]}))).
Proof. intros Hi. unfold error.unknownError. by rewrite Hi. Qed.

Lemma unknownError_of_other cause s :
  instanceof_Error cause = false → ToString cause = Normal s →
  error.unknownError cause
  = Normal (VObj Object_prototype
              (<["message" := VStr s]>
                 (<["cause" := cause]> {[ "_tag" := VStr "UnknownError" ]}))).
Proof. intros Hi Hs. unfold error.unknownError. by rewrite Hi, Hs. Qed.

(** The function-wrapping constructor on promises: fulfilment gives a
    Success, rejection the Failure of the mapped reason. *)
Lemma wrap_settled fn p :
  fn tt = Normal p →
  ∃ box,
    wrap (WrapFunction fn) = Normal box
    ∧ match p with
      | Fulfilled v => run box = Fulfilled (OkVariant v)
      | Rejected reason =>
          ∀ error, error.unknownError reason = Normal error →
            run box = Fulfilled (ErrVariant error)
      | Pending => run box = Pending
      end.
Proof.
  intros Hfn. eexists. split; [by apply wrap_function_returns|].
  destruct p as [v | reason |]; [done | | done].
  intros error Hu. by apply fromPromise_rejected.
Qed.

End AsyncBox_facts.

(** C7, at a failing input: a function passed to [wrap] that raises [e]
    before it returns a promise.  No wrapper is made and no mapping is
    applied to [e]: the call of [wrap] itself throws [e], in the function
    form and in the [{ try, catch }] form alike. *)
Theorem C7_wrap_lets_a_raise_escape `{Host} (e : value)
    (catch_ : value → Completion value) :
  AsyncBox.wrap (AsyncBox.WrapFunction (fun _ => Throw e)) = Throw e
  ∧ AsyncBox.wrap (AsyncBox.WrapConfig (fun _ => Throw e) catch_) = Throw e.
Proof. split; reflexivity. Qed.

(** The synchronous sibling [Box.from] does catch what its function raises. *)
Example Box_from_catches (e : value) (onError : value → value) (w : World) :
  ∃ box,
    Box.from (fun _ => throw e) (pure onError) w
    = (Normal box, mkWorld (<[box := ErrVariant (onError e)]> (boxes w)) (calls w)).
Proof. by exists (fresh (dom (boxes w))). Qed.

(** * Further properties of the code *)

Lemma journal_nil w : journal w [] = w.
Proof. destruct w as [b c]. unfold journal. cbn. by rewrite app_nil_r. Qed.

Lemma not_a_member_undefined : "undefined" ∉ Object_prototype_members.
Proof.
  intros Hin. apply (bool_decide_eq_true_2 _) in Hin. vm_compute in Hin.
  discriminate Hin.
Qed.

(** ** matcher.ts *)

(** X1.  Whatever the Result and whatever the table, [matchExhaustive] runs
    at most one handler of the table.  Either none runs and the world is as
    it was, or exactly one runs, it receives the value or the error of the
    Result, and the matcher returns what it returned. *)
Theorem X1_matchExhaustive_runs_at_most_one_handler `{Host} (r : Result)
    (hs : gmap string (value → value)) (w : World) :
  (∃ c, matcher.matchExhaustive r (spy_table hs) w = (c, w))
  ∨ (∃ key h,
       hs !! key = Some h
       ∧ (isOk r = true → key = "ok")
       ∧ matcher.matchExhaustive r (spy_table hs) w
         = (Normal (h (payload r)), journal w [(key, payload r)])).
Proof.
  destruct r as [v | error]; cbn [matcher.matchExhaustive payload].
  - unfold lookup_property. rewrite spy_table_lookup.
    destruct (hs !! "ok") as [h|] eqn:Hh; cbn.
    + right. exists "ok", h. by rewrite spy_pure.
    + left. case_bool_decide; eauto.
  - unfold bind, lift.
    destruct (get error "_tag") as [tag | x]; [|by eauto].
    destruct (ToString tag) as [key | x] eqn:Hkey; [|by eauto].
    unfold lookup_property. rewrite spy_table_lookup.
    destruct (hs !! key) as [h|] eqn:Hh; cbn.
    + right. exists key, h. by rewrite spy_pure.
    + left. case_bool_decide; cbn; by eauto.
Qed.

(** X2.  A failure whose tag names neither an entry of the table nor a
    member of Object.prototype is reported by name: the matcher throws
    [Error("Unhandled error tag: " + tag)] and runs nothing. *)
Theorem X2_unhandled_tag_is_named `{Host} (config : gmap string (value → Eff value))
    (error : value) (T : string) (w : World) :
  has_tag error T → config !! T = None → T ∉ Object_prototype_members →
  matcher.matchExhaustive (ErrVariant error) config w
  = (Throw (new_Error ("Unhandled error tag: " ++ T)), w).
Proof. intros Ht Hnone Hm. by apply matchExhaustive_unhandled. Qed.

Lemma X2_witness :
  has_tag (VObj Object_prototype {[ "_tag" := VStr "Z" ]}) "Z"
  ∧ spy_table resource_handlers !! "Z" = None
  ∧ ("Z" ∉ Object_prototype_members)
  ∧ matcher.matchExhaustive
      (ErrVariant (VObj Object_prototype {[ "_tag" := VStr "Z" ]}))
      (spy_table resource_handlers) w0
    = (Throw (new_Error "Unhandled error tag: Z"), w0).
Proof.
  assert (Hm : "Z" ∉ Object_prototype_members).
  { intros Hin. apply (bool_decide_eq_true_2 _) in Hin. vm_compute in Hin.
    discriminate Hin. }
  split; [reflexivity|]. split; [reflexivity|]. split; [exact Hm|].
  exact (X2_unhandled_tag_is_named (spy_table resource_handlers)
           (VObj Object_prototype {[ "_tag" := VStr "Z" ]}) "Z" w0
           eq_refl eq_refl Hm).
Defined.

(** X3.  A failure without a discriminant.  When the error is null or
    undefined, reading [error._tag] throws and that TypeError is what the
    matcher throws.  When the error has no [_tag] (a string, a number, an
    object without the property), the lookup goes under the key
    ["undefined"]: the entry there runs if the table has one, and otherwise
    the matcher throws [Error("Unhandled error tag: undefined")]. *)
Theorem X3_failure_without_discriminant `{Host}
    (config : gmap string (value → Eff value)) (error : value) (w : World) :
  match get error "_tag" with
  | Throw x =>
      matcher.matchExhaustive (ErrVariant error) config w = (Throw x, w)
      ∧ (error = VNull ∨ error = VUndefined)
  | Normal VUndefined =>
      matcher.matchExhaustive (ErrVariant error) config w
      = match config !! "undefined" with
        | Some handler => handler error w
        | None => (Throw (new_Error "Unhandled error tag: undefined"), w)
        end
  | Normal _ => True
  end.
Proof.
  unfold matcher.matchExhaustive, bind, lift.
  destruct (get error "_tag") as [tag | x] eqn:Hget.
  - destruct tag; try done. cbn. unfold lookup_property.
    destruct (config !! "undefined") as [handler|]; [done|].
    by rewrite (bool_decide_eq_false_2 _ not_a_member_undefined).
  - split; [done|]. destruct error; try discriminate Hget; auto.
Qed.

(** ** box.ts *)

Lemma map_pure this r f w :
  boxes w !! this = Some r →
  ∃ box,
    (box ∉ dom (boxes w))
    ∧ Box.map this (pure f) w
      = (Normal box,
         mkWorld (<[box := bimap f (fun error => error) r]> (boxes w)) (calls w)).
Proof.
  intros E. exists (fresh (dom (boxes w))). split; [apply is_fresh|].
  destruct r as [v | error]; [by rewrite (map_ok _ _ _ _ E) | by rewrite (map_err _ _ _ _ E)].
Qed.

Lemma mapErr_pure this r g w :
  boxes w !! this = Some r →
  ∃ box,
    (box ∉ dom (boxes w))
    ∧ Box.mapErr this (pure g) w
      = (Normal box,
         mkWorld (<[box := bimap (fun v => v) g r]> (boxes w)) (calls w)).
Proof.
  intros E. exists (fresh (dom (boxes w))). split; [apply is_fresh|].
  destruct r as [v | error];
    [by rewrite (mapErr_ok _ _ _ _ E) | by rewrite (mapErr_err _ _ _ _ E)].
Qed.

Lemma lookup_other_insert (m : gmap loc Result) this box r r' :
  m !! this = Some r → box ∉ dom m → <[box := r']> m !! this = Some r.
Proof.
  intros E Hfresh. rewrite lookup_insert_ne; [done|].
  intros ->. apply Hfresh. apply elem_of_dom. by eexists.
Qed.

(** X4.  [Box.from(fn, onError)] never throws when [onError] returns.  If
    [fn] returns [v] the new wrapper holds Success([v]) and [onError] is not
    called; if [fn] throws [e] the new wrapper holds Failure([onError(e)])
    after one call of [onError], on [e]. *)
Theorem X4_from_captures_what_fn_throws (fn : unit → Eff value) (name : string)
    (g : value → value) (w : World) :
  ∃ box,
    (box ∉ dom (boxes (fn tt w).2))
    ∧ Box.from fn (spy name (pure g)) w
      = (Normal box,
         match (fn tt w).1 with
         | Normal v =>
             mkWorld (<[box := OkVariant v]> (boxes (fn tt w).2)) (calls (fn tt w).2)
         | Throw e =>
             mkWorld (<[box := ErrVariant (g e)]> (boxes (fn tt w).2))
               (calls (fn tt w).2 ++ [(name, e)])
         end).
Proof.
  unfold Box.from, try_catch, bind at 1.
  destruct (fn tt w) as [[v | e] w1]; cbn [fst snd].
  - exists (fresh (dom (boxes w1))). split; [apply is_fresh | done].
  - exists (fresh (dom (boxes w1))). split; [apply is_fresh|].
    unfold bind. by rewrite spy_pure.
Qed.

(** X5.  [match({ ok, err })] runs exactly one of its two handlers, once:
    [ok] on the value of a Success, [err] on the error of a Failure; it
    returns what that handler returned and leaves every wrapper alone. *)
Theorem X5_match_runs_one_handler (this : loc) (r : Result)
    (h_ok h_err : value → value) (w : World) :
  boxes w !! this = Some r →
  Box.match_ this (spy "ok" (pure h_ok)) (spy "err" (pure h_err)) w
  = (Normal match r with
            | OkVariant v => h_ok v
            | ErrVariant error => h_err error
            end,
     journal w [(match r with OkVariant _ => "ok" | ErrVariant _ => "err" end,
                 payload r)]).
Proof.
  intros E. unfold Box.match_, bind. rewrite (result_of_live _ _ _ E).
  destruct r; apply spy_pure.
Qed.

Lemma X5_witness :
  boxes w_not_found !! 0 = Some (ErrVariant NotFound_123)
  ∧ Box.match_ 0 (spy "ok" (pure double)) (spy "err" (pure (fun _ => VNum 0))) w_not_found
    = (Normal (VNum 0), journal w_not_found [("err", NotFound_123)]).
Proof.
  split; [reflexivity|].
  exact (X5_match_runs_one_handler 0 (ErrVariant NotFound_123) double
           (fun _ => VNum 0) w_not_found eq_refl).
Defined.

(** X6.  [map] obeys the functor laws on the contents of the wrappers:
    mapping the identity gives a wrapper with the contents of the receiver,
    and mapping [f] then [g] gives the contents that mapping their
    composition gives. *)
Theorem X6_map_functor_laws (this : loc) (r : Result) (f g : value → value)
    (w : World) :
  boxes w !! this = Some r →
  (∃ box w1,
     Box.map this (pure (fun v => v)) w = (Normal box, w1)
     ∧ boxes w1 !! box = Some r)
  ∧ ∃ box1 w1 box2 w2,
      (let* b := Box.map this (pure f) in Box.map b (pure g)) w = (Normal box1, w1)
      ∧ Box.map this (pure (fun v => g (f v))) w = (Normal box2, w2)
      ∧ boxes w1 !! box1 = Some (bimap (fun v => g (f v)) (fun error => error) r)
      ∧ boxes w2 !! box2 = Some (bimap (fun v => g (f v)) (fun error => error) r).
Proof.
  intros E. split.
  - destruct (map_pure this r (fun v => v) w E) as (box & _ & ->).
    eexists _, _. split; [done|]. cbn. rewrite lookup_insert_eq. by destruct r.
  - destruct (map_pure this r f w E) as (b & Hb & Hfirst).
    set (w' := mkWorld (<[b := bimap f (fun error => error) r]> (boxes w)) (calls w)) in *.
    assert (Eb : boxes w' !! b = Some (bimap f (fun error => error) r))
      by apply lookup_insert_eq.
    destruct (map_pure b _ g w' Eb) as (box1 & _ & Hsecond).
    destruct (map_pure this r (fun v => g (f v)) w E) as (box2 & _ & Hboth).
    eexists box1, _, box2, _. unfold bind at 1. rewrite Hfirst, Hsecond, Hboth.
    split; [done|]. split; [done|]. cbn. rewrite !lookup_insert_eq. by destruct r.
Qed.

Lemma X6_witness :
  boxes w_ok_42 !! 0 = Some (OkVariant (VNum 42))
  ∧ ∃ box1 w1 box2 w2,
      (let* b := Box.map 0 (pure double) in Box.map b (pure double)) w_ok_42
      = (Normal box1, w1)
      ∧ Box.map 0 (pure (fun v => double (double v))) w_ok_42 = (Normal box2, w2)
      ∧ boxes w1 !! box1 = Some (OkVariant (VNum 168))
      ∧ boxes w2 !! box2 = Some (OkVariant (VNum 168)).
Proof.
  split; [reflexivity|].
  exact (proj2 (X6_map_functor_laws 0 (OkVariant (VNum 42)) double double
                  w_ok_42 eq_refl)).
Defined.

(** X7.  [mapErr(fn)] on a wrapper holding a Failure calls [fn] once, on
    the error, and returns a new wrapper holding Failure([fn(error)]); on a
    wrapper holding a Success it does not call [fn], and the new wrapper
    holds the same Success. *)
Theorem X7_mapErr_calls_fn_once (this : loc) (r : Result) (name : string)
    (f : value → value) (w : World) :
  boxes w !! this = Some r →
  ∃ box,
    (box ∉ dom (boxes w))
    ∧ Box.mapErr this (spy name (pure f)) w
      = (Normal box,
         match r with
         | ErrVariant error =>
             mkWorld (<[box := ErrVariant (f error)]> (boxes w))
               (calls w ++ [(name, error)])
         | OkVariant v => mkWorld (<[box := OkVariant v]> (boxes w)) (calls w)
         end).
Proof.
  intros E. exists (fresh (dom (boxes w))). split; [apply is_fresh|].
  destruct r as [v | error].
  - by rewrite (mapErr_ok _ _ _ _ E).
  - rewrite (mapErr_err _ _ _ _ E). unfold bind. by rewrite spy_pure.
Qed.

Lemma X7_witness :
  boxes w_not_found !! 0 = Some (ErrVariant NotFound_123)
  ∧ ∃ box,
      (box ∉ dom (boxes w_not_found))
      ∧ Box.mapErr 0 (spy "describe" (pure (fun _ => VStr "missing"))) w_not_found
        = (Normal box,
           mkWorld (<[box := ErrVariant (VStr "missing")]> (boxes w_not_found))
             [("describe", NotFound_123)]).
Proof.
  split; [reflexivity|].
  exact (X7_mapErr_calls_fn_once 0 (ErrVariant NotFound_123) "describe"
           (fun _ => VStr "missing") w_not_found eq_refl).
Defined.

(** X8.  [map] and [mapErr] work on opposite sides and commute: in either
    order the last wrapper holds the value mapped or the error mapped, and
    the receiver still holds what it held. *)
Theorem X8_map_and_mapErr_commute (this : loc) (r : Result) (f g : value → value)
    (w : World) :
  boxes w !! this = Some r →
  ∃ box1 w1 box2 w2,
    (let* b := Box.map this (pure f) in Box.mapErr b (pure g)) w = (Normal box1, w1)
    ∧ (let* b := Box.mapErr this (pure g) in Box.map b (pure f)) w = (Normal box2, w2)
    ∧ boxes w1 !! box1 = Some (bimap f g r)
    ∧ boxes w2 !! box2 = Some (bimap f g r)
    ∧ boxes w1 !! this = Some r
    ∧ boxes w2 !! this = Some r.
Proof.
  intros E.
  destruct (map_pure this r f w E) as (a & Ha & Hmap).
  set (wa := mkWorld (<[a := bimap f (fun error => error) r]> (boxes w)) (calls w)) in *.
  assert (Ea : boxes wa !! a = Some (bimap f (fun error => error) r))
    by apply lookup_insert_eq.
  destruct (mapErr_pure a _ g wa Ea) as (box1 & H1 & Hthen).
  destruct (mapErr_pure this r g w E) as (b & Hb & HmapErr).
  set (wb := mkWorld (<[b := bimap (fun v => v) g r]> (boxes w)) (calls w)) in *.
  assert (Eb : boxes wb !! b = Some (bimap (fun v => v) g r))
    by apply lookup_insert_eq.
  destruct (map_pure b _ f wb Eb) as (box2 & H2 & Hthen').
  eexists box1, _, box2, _. unfold bind.
  rewrite Hmap, Hthen, HmapErr, Hthen'.
  split; [done|]. split; [done|]. cbn.
  rewrite !lookup_insert_eq.
  split; [by destruct r|]. split; [by destruct r|].
  assert (Ethis_a : boxes wa !! this = Some r) by by apply lookup_other_insert.
  assert (Ethis_b : boxes wb !! this = Some r) by by apply lookup_other_insert.
  split; by apply lookup_other_insert.
Qed.

Lemma X8_witness :
  boxes w_ok_42 !! 0 = Some (OkVariant (VNum 42))
  ∧ ∃ box1 w1 box2 w2,
      (let* b := Box.map 0 (pure double) in
       Box.mapErr b (pure (fun _ => VStr "missing"))) w_ok_42 = (Normal box1, w1)
      ∧ (let* b := Box.mapErr 0 (pure (fun _ => VStr "missing")) in
         Box.map b (pure double)) w_ok_42 = (Normal box2, w2)
      ∧ boxes w1 !! box1 = Some (OkVariant (VNum 84))
      ∧ boxes w2 !! box2 = Some (OkVariant (VNum 84))
      ∧ boxes w1 !! 0 = Some (OkVariant (VNum 42))
      ∧ boxes w2 !! 0 = Some (OkVariant (VNum 42)).
Proof.
  split; [reflexivity|].
  exact (X8_map_and_mapErr_commute 0 (OkVariant (VNum 42)) double
           (fun _ => VStr "missing") w_ok_42 eq_refl).
Defined.

(** X9.  [flatMap] obeys the monad laws.  Right identity: [flatMap(Box.ok)]
    gives a wrapper with the contents of the receiver.  Associativity:
    chaining [flatMap(f)] and [flatMap(g)] is the same computation as one
    [flatMap] of [v => f(v).flatMap(g)], whatever [f] and [g] do.  Left
    identity: [Box.ok(v).flatMap(f)] is the call [f(v)], made once the
    wrapper of [v] exists. *)
Theorem X9_flatMap_monad_laws (this : loc) (r : Result) (f g : value → Eff loc)
    (w : World) :
  boxes w !! this = Some r →
  (∃ box w1,
     Box.flatMap this Box.ok w = (Normal box, w1) ∧ boxes w1 !! box = Some r)
  ∧ (let* b := Box.flatMap this f in Box.flatMap b g) w
    = Box.flatMap this (fun v => let* b := f v in Box.flatMap b g) w
  ∧ ∀ v, (let* b := Box.ok v in Box.flatMap b f) w = f v (Box.ok v w).2.
Proof.
  intros E. split; [|split].
  - destruct r as [v | error].
    + rewrite (flatMap_ok _ _ _ _ E).
      eexists _, _. split; [done|]. cbn. by rewrite lookup_insert_eq.
    + rewrite (flatMap_err _ _ _ _ E). by exists this, w.
  - destruct r as [v | error].
    + unfold bind at 1. by rewrite !(flatMap_ok _ _ _ _ E).
    + unfold bind at 1.
      by rewrite !(flatMap_err _ _ _ _ E).
  - intros v. unfold bind. cbn [Box.ok Box.new_Box snd].
    apply flatMap_ok. cbn. by rewrite lookup_insert_eq.
Qed.

Lemma X9_witness :
  boxes w_step1 !! 0 = Some (ErrVariant Step1Failed)
  ∧ (let* b := Box.flatMap 0 step2 in Box.flatMap b step2) w_step1
    = Box.flatMap 0 (fun v => let* b := step2 v in Box.flatMap b step2) w_step1.
Proof.
  split; [reflexivity|].
  exact (proj1 (proj2 (X9_flatMap_monad_laws 0 (ErrVariant Step1Failed)
                         step2 step2 w_step1 eq_refl))).
Defined.

(** X10.  [map(f)] is [flatMap(v => Box.ok(f(v)))] on the contents: both
    return a wrapper holding the value mapped, or the Failure as it was. *)
Theorem X10_map_is_flatMap_of_ok (this : loc) (r : Result) (f : value → value)
    (w : World) :
  boxes w !! this = Some r →
  ∃ box1 w1 box2 w2,
    Box.map this (pure f) w = (Normal box1, w1)
    ∧ Box.flatMap this (fun v => Box.ok (f v)) w = (Normal box2, w2)
    ∧ boxes w1 !! box1 = Some (bimap f (fun error => error) r)
    ∧ boxes w2 !! box2 = Some (bimap f (fun error => error) r).
Proof.
  intros E. destruct (map_pure this r f w E) as (box1 & _ & Hmap).
  destruct r as [v | error].
  - rewrite (flatMap_ok _ _ _ _ E), Hmap.
    eexists _, _, _, _. split; [done|]. split; [done|]. cbn.
    by rewrite !lookup_insert_eq.
  - rewrite (flatMap_err _ _ _ _ E), Hmap.
    eexists _, _, this, w. split; [done|]. split; [done|]. cbn.
    by rewrite lookup_insert_eq.
Qed.

Lemma X10_witness :
  boxes w_ok_42 !! 0 = Some (OkVariant (VNum 42))
  ∧ ∃ box1 w1 box2 w2,
      Box.map 0 (pure double) w_ok_42 = (Normal box1, w1)
      ∧ Box.flatMap 0 (fun v => Box.ok (double v)) w_ok_42 = (Normal box2, w2)
      ∧ boxes w1 !! box1 = Some (OkVariant (VNum 84))
      ∧ boxes w2 !! box2 = Some (OkVariant (VNum 84)).
Proof.
  split; [reflexivity|].
  exact (X10_map_is_flatMap_of_ok 0 (OkVariant (VNum 42)) double w_ok_42 eq_refl).
Defined.

(** X11.  [orElseTag(tag, fallback)] is [catchTag(tag, () => Box.ok(fallback))]:
    the same computation on every receiver, live or not. *)
Theorem X11_orElseTag_is_catchTag_with_constant (this : loc) (tag : string)
    (fallback : value) (w : World) :
  Box.orElseTag this tag fallback w
  = Box.catchTag this tag (fun _ => Box.ok fallback) w.
Proof.
  unfold Box.orElseTag, Box.catchTag, bind.
  destruct (Box.result_of this w) as [[[v | error] | x] w1]; [done| |done].
  unfold lift. destruct (get error "_tag") as [t | x]; [|done].
  by destruct (strict_eq_string t tag).
Qed.

(** X12.  The tag-scoped methods on a Failure without a discriminant.  When
    the error is null or undefined, [catchTag] and [orElseTag] throw the
    TypeError of reading [error._tag], run no handler and change nothing,
    while [catchAll] still hands the error to its handler.  When the error
    has no [_tag], both return the receiver, whatever the tag asked for. *)
Theorem X12_tag_scoped_methods_without_discriminant (this : loc) (error : value)
    (tag : string) (handler : value → Eff loc) (fallback : value) (w : World) :
  boxes w !! this = Some (ErrVariant error) →
  Box.catchAll this handler w = handler error w
  ∧ match get error "_tag" with
    | Throw x =>
        (error = VNull ∨ error = VUndefined)
        ∧ Box.catchTag this tag handler w = (Throw x, w)
        ∧ Box.orElseTag this tag fallback w = (Throw x, w)
    | Normal VUndefined =>
        Box.catchTag this tag handler w = (Normal this, w)
        ∧ Box.orElseTag this tag fallback w = (Normal this, w)
    | Normal _ => True
    end.
Proof.
  intros E. split; [by apply catchAll_err|].
  unfold Box.catchTag, Box.orElseTag, bind, lift. rewrite (result_of_live _ _ _ E).
  destruct (get error "_tag") as [t | x] eqn:Hget.
  - by destruct t.
  - split; [|done]. destruct error; try discriminate Hget; auto.
Qed.

Lemma X12_witness :
  boxes (mkWorld {[ 0 := ErrVariant VNull ]} []) !! 0 = Some (ErrVariant VNull)
  ∧ Box.catchTag 0 "NotFound" (fun _ => Box.ok (VNum 0)) (mkWorld {[ 0 := ErrVariant VNull ]} [])
    = (Throw (new_TypeError "Cannot read properties of null (reading '_tag')"),
       mkWorld {[ 0 := ErrVariant VNull ]} []).
Proof.
  split; [reflexivity|].
  exact (proj1 (proj2 (proj2 (X12_tag_scoped_methods_without_discriminant 0 VNull
           "NotFound" (fun _ => Box.ok (VNum 0)) VUndefined
           (mkWorld {[ 0 := ErrVariant VNull ]} []) eq_refl)))).
Defined.

Lemma in_union_mono r (U V : gset string) : in_union r U → U ⊆ V → in_union r V.
Proof.
  destruct r as [v | error]; [done|]. intros (T & Ht & HT) Hsub.
  exists T. split; [done|]. by apply Hsub.
Qed.

Lemma construct_new_Box r : construct r = Box.new_Box r.
Proof. by destruct r. Qed.

Lemma builds_construct g : builds g (fun v => construct (g v)).
Proof.
  intros v w. rewrite construct_new_Box.
  destruct (new_Box_extends (g v) w) as (box & -> & Hfresh & Hext).
  eexists _, _. split; [done|]. cbn. by rewrite lookup_insert_eq.
Qed.

(** A table complete for the union of the Result makes the matcher return. *)
Lemma matchExhaustive_complete `{Host} (U : gset string)
    (hs : gmap string (value → value)) (r : Result) (w : World) :
  complete U hs → in_union r U →
  ∃ v entries,
    matcher.matchExhaustive r (spy_table hs) w = (Normal v, journal w entries).
Proof.
  intros [Hok HU] Hr. destruct r as [v | error].
  - apply elem_of_dom in Hok as [h Hh].
    rewrite (matchExhaustive_ok _ (spy "ok" (pure h)));
      [|by rewrite spy_table_lookup, Hh].
    rewrite spy_pure. by eexists _, _.
  - destruct Hr as (T & Ht & HT). apply HU, elem_of_dom in HT as [h Hh].
    rewrite (matchExhaustive_err _ (spy T (pure h)) _ T Ht);
      [|by rewrite spy_table_lookup, Hh].
    rewrite spy_pure. by eexists _, _.
Qed.

(** X13.  Tag removal is sound.  Take a receiver whose error, if any, lies
    in the union [U], and a handler whose wrappers hold errors of the union
    [F].  After [catchTag(tag, handler)] the wrapper holds a Success or an
    error of [(U minus tag) union F]; so [matchExhaustive] with a table
    complete for that union, which need not handle [tag], returns a value. *)
Theorem X13_catchTag_removes_the_tag `{Host} (this : loc) (r : Result)
    (tag : string) (handler : value → Eff loc) (g : value → Result)
    (U F : gset string) (hs : gmap string (value → value)) (w : World) :
  boxes w !! this = Some r → in_union r U →
  builds g handler → (∀ error, in_union (g error) F) →
  complete ((U ∖ {[ tag ]}) ∪ F) hs →
  ∃ box w1 r',
    Box.catchTag this tag handler w = (Normal box, w1)
    ∧ boxes w1 !! box = Some r'
    ∧ in_union r' ((U ∖ {[ tag ]}) ∪ F)
    ∧ ∃ v entries,
        Box.matchExhaustive box (spy_table hs) w1 = (Normal v, journal w1 entries).
Proof.
  intros E Hr Hg HF Hc.
  assert (Hgoal : ∃ box w1 r',
             Box.catchTag this tag handler w = (Normal box, w1)
             ∧ boxes w1 !! box = Some r'
             ∧ in_union r' ((U ∖ {[ tag ]}) ∪ F)).
  { destruct r as [v | error].
    - exists this, w, (OkVariant v). by rewrite (catchTag_ok _ _ _ _ _ E).
    - destruct Hr as (T & Ht & HT).
      rewrite (catchTag_err _ _ (VStr T) _ _ _ E Ht). cbn [strict_eq_string].
      destruct (decide (T = tag)) as [-> | Hne].
      + rewrite String.eqb_refl.
        destruct (Hg error w) as (box & w1 & -> & _ & Hbox).
        exists box, w1, (g error). split; [done|]. split; [done|].
        apply (in_union_mono _ F); [done | apply union_subseteq_r].
      + apply String.eqb_neq in Hne as Hb. rewrite Hb.
        exists this, w, (ErrVariant error). split; [done|]. split; [done|].
        exists T. split; [done|]. apply elem_of_union_l, elem_of_difference.
        split; [done|]. by intros ?%elem_of_singleton. }
  destruct Hgoal as (box & w1 & r' & Hrun & Hbox & Hin).
  exists box, w1, r'. split; [done|]. split; [done|]. split; [done|].
  rewrite (Box_matchExhaustive_live _ _ _ _ Hbox).
  by apply (matchExhaustive_complete ((U ∖ {[ tag ]}) ∪ F)).
Qed.

Lemma X13_witness :
  boxes w_not_found !! 0 = Some (ErrVariant NotFound_123)
  ∧ in_union (ErrVariant NotFound_123) {[ "NotFound" ]}
  ∧ builds (fun _ => OkVariant (VNum 0)) (fun _ => Box.ok (VNum 0))
  ∧ (∀ error : value, in_union (OkVariant (VNum 0)) ∅)
  ∧ complete (({[ "NotFound" ]} ∖ {[ "NotFound" ]}) ∪ ∅) {[ "ok" := fun v => v ]}
  ∧ ∃ box w1 r',
      Box.catchTag 0 "NotFound" (fun _ => Box.ok (VNum 0)) w_not_found
      = (Normal box, w1)
      ∧ boxes w1 !! box = Some r'
      ∧ in_union r' (({[ "NotFound" ]} ∖ {[ "NotFound" ]}) ∪ ∅)
      ∧ ∃ v entries,
          Box.matchExhaustive box (spy_table {[ "ok" := fun v => v ]}) w1
          = (Normal v, journal w1 entries).
Proof.
  assert (Hu : in_union (ErrVariant NotFound_123) {[ "NotFound" ]}).
  { exists "NotFound". split; [reflexivity | by apply elem_of_singleton]. }
  assert (Hb : builds (fun _ => OkVariant (VNum 0)) (fun _ => Box.ok (VNum 0))).
  { exact (builds_new_Box (fun _ => OkVariant (VNum 0))). }
  assert (Hc : complete (({[ "NotFound" ]} ∖ {[ "NotFound" ]}) ∪ ∅)
                 {[ "ok" := fun v : value => v ]}).
  { split; [apply elem_of_dom; by eexists|].
    intros T [[Hin Hout]%elem_of_difference | Hin]%elem_of_union.
    - by destruct Hout.
    - by apply elem_of_empty in Hin. }
  split; [reflexivity|]. split; [exact Hu|]. split; [exact Hb|].
  split; [done|]. split; [exact Hc|].
  exact (X13_catchTag_removes_the_tag 0 (ErrVariant NotFound_123) "NotFound"
           (fun _ => Box.ok (VNum 0)) (fun _ => OkVariant (VNum 0))
           {[ "NotFound" ]} ∅ {[ "ok" := fun v => v ]} w_not_found
           eq_refl Hu Hb (fun _ => I) Hc).
Defined.

(** X14.  Union accumulation is sound.  Take a receiver whose error, if any,
    lies in the union [E1], and a step whose wrappers hold errors of the
    union [E2].  After [flatMap(step)] the wrapper holds a Success or an
    error of [E1 union E2]; so [matchExhaustive] with a table complete for
    that union returns a value. *)
Theorem X14_flatMap_accumulates_the_unions `{Host} (this : loc) (r : Result)
    (fn : value → Eff loc) (g : value → Result) (E1 E2 : gset string)
    (hs : gmap string (value → value)) (w : World) :
  boxes w !! this = Some r → in_union r E1 →
  builds g fn → (∀ v, in_union (g v) E2) →
  complete (E1 ∪ E2) hs →
  ∃ box w1 r',
    Box.flatMap this fn w = (Normal box, w1)
    ∧ boxes w1 !! box = Some r'
    ∧ in_union r' (E1 ∪ E2)
    ∧ ∃ v entries,
        Box.matchExhaustive box (spy_table hs) w1 = (Normal v, journal w1 entries).
Proof.
  intros E Hr Hg HE2 Hc.
  assert (Hgoal : ∃ box w1 r',
             Box.flatMap this fn w = (Normal box, w1)
             ∧ boxes w1 !! box = Some r' ∧ in_union r' (E1 ∪ E2)).
  { destruct r as [v | error].
    - rewrite (flatMap_ok _ _ _ _ E).
      destruct (Hg v w) as (box & w1 & -> & _ & Hbox).
      exists box, w1, (g v). split; [done|]. split; [done|].
      apply (in_union_mono _ E2); [done | apply union_subseteq_r].
    - rewrite (flatMap_err _ _ _ _ E).
      exists this, w, (ErrVariant error). split; [done|]. split; [done|].
      apply (in_union_mono _ E1); [done | apply union_subseteq_l]. }
  destruct Hgoal as (box & w1 & r' & Hrun & Hbox & Hin).
  exists box, w1, r'. split; [done|]. split; [done|]. split; [done|].
  rewrite (Box_matchExhaustive_live _ _ _ _ Hbox).
  by apply (matchExhaustive_complete (E1 ∪ E2)).
Qed.

Lemma X14_witness :
  boxes w_step1 !! 0 = Some (ErrVariant Step1Failed)
  ∧ in_union (ErrVariant Step1Failed) {[ "Step1Failed" ]}
  ∧ builds (fun _ => OkVariant (VStr "step 2 ran")) step2
  ∧ (∀ v : value, in_union (OkVariant (VStr "step 2 ran")) {[ "Step2Failed" ]})
  ∧ complete ({[ "Step1Failed" ]} ∪ {[ "Step2Failed" ]}) step_handlers
  ∧ ∃ box w1 r',
      Box.flatMap 0 step2 w_step1 = (Normal box, w1)
      ∧ boxes w1 !! box = Some r'
      ∧ in_union r' ({[ "Step1Failed" ]} ∪ {[ "Step2Failed" ]})
      ∧ ∃ v entries,
          Box.matchExhaustive box (spy_table step_handlers) w1
          = (Normal v, journal w1 entries).
Proof.
  assert (Hu : in_union (ErrVariant Step1Failed) {[ "Step1Failed" ]}).
  { exists "Step1Failed". split; [reflexivity | by apply elem_of_singleton]. }
  assert (Hb : builds (fun _ => OkVariant (VStr "step 2 ran")) step2).
  { exact (builds_new_Box (fun _ => OkVariant (VStr "step 2 ran"))). }
  assert (Hc : complete ({[ "Step1Failed" ]} ∪ {[ "Step2Failed" ]}) step_handlers).
  { split; [apply elem_of_dom; by eexists|].
    intros T [->%elem_of_singleton | ->%elem_of_singleton]%elem_of_union;
      apply elem_of_dom; by eexists. }
  split; [reflexivity|]. split; [exact Hu|]. split; [exact Hb|].
  split; [done|]. split; [exact Hc|].
  exact (X14_flatMap_accumulates_the_unions 0 (ErrVariant Step1Failed) step2
           (fun _ => OkVariant (VStr "step 2 ran"))
           {[ "Step1Failed" ]} {[ "Step2Failed" ]} step_handlers w_step1
           eq_refl Hu Hb (fun _ => I) Hc).
Defined.

(** X15.  After [catchAll] with a handler whose wrappers hold a Success,
    the wrapper holds a Success whatever the receiver held, so [unwrap()]
    returns a value and does not throw. *)
Theorem X15_unwrap_after_catchAll `{Host} (this : loc) (r : Result)
    (handler : value → Eff loc) (g : value → Result) (w : World) :
  boxes w !! this = Some r →
  builds g handler → (∀ error, isOk (g error) = true) →
  ∃ v w1,
    (let* b := Box.catchAll this handler in Box.unwrap b) w = (Normal v, w1)
    ∧ boxes w ⊆ boxes w1
    ∧ (isOk r = true → v = payload r ∧ w1 = w).
Proof.
  intros E Hg Hok. unfold bind at 1. destruct r as [v | error].
  - rewrite (catchAll_ok _ _ _ _ E). exists v, w.
    unfold Box.unwrap, bind. by rewrite (result_of_live _ _ _ E).
  - rewrite (catchAll_err _ _ _ _ E).
    destruct (Hg error w) as (box & w1 & -> & Hsub & Hbox).
    destruct (proj1 (isOk_OkVariant _) (Hok error)) as [v Hv].
    rewrite Hv in Hbox. exists v, w1.
    unfold Box.unwrap, bind. by rewrite (result_of_live _ _ _ Hbox).
Qed.

Lemma X15_witness :
  boxes w_not_found !! 0 = Some (ErrVariant NotFound_123)
  ∧ builds (fun _ => OkVariant (VNum 0)) (fun _ => Box.ok (VNum 0))
  ∧ (∀ error : value, isOk (OkVariant (VNum 0)) = true)
  ∧ ∃ v w1,
      (let* b := Box.catchAll 0 (fun _ => Box.ok (VNum 0)) in Box.unwrap b) w_not_found
      = (Normal v, w1)
      ∧ boxes w_not_found ⊆ boxes w1
      ∧ (isOk (ErrVariant NotFound_123) = true → v = NotFound_123 ∧ w1 = w_not_found).
Proof.
  assert (Hb : builds (fun _ => OkVariant (VNum 0)) (fun _ => Box.ok (VNum 0))).
  { exact (builds_new_Box (fun _ => OkVariant (VNum 0))). }
  split; [reflexivity|]. split; [exact Hb|]. split; [done|].
  exact (X15_unwrap_after_catchAll 0 (ErrVariant NotFound_123)
           (fun _ => Box.ok (VNum 0)) (fun _ => OkVariant (VNum 0)) w_not_found
           eq_refl Hb (fun _ => eq_refl)).
Defined.

(** X16.  What a constructor wraps is what the observers read.  [Box.ok(v)]
    and [Box.err(error)] return a new wrapper and leave the others alone;
    on it [toResult()] gives back the Result, [isOk()] and [isErr()] tell
    its variant and never agree, [unwrapOr(d)] gives the value or [d], and
    wrapping [toResult()] again gives a second wrapper with equal contents. *)
Theorem X16_constructors_and_observers (r : Result) (d : value) (w : World) :
  ∃ box w1,
    construct r w = (Normal box, w1)
    ∧ (box ∉ dom (boxes w))
    ∧ boxes w ⊆ boxes w1
    ∧ Box.toResult box w1 = (Normal r, w1)
    ∧ Box.isOk box w1 = (Normal (isOk r), w1)
    ∧ Box.isErr box w1 = (Normal (negb (isOk r)), w1)
    ∧ Box.unwrapOr box d w1 = (Normal (if isOk r then payload r else d), w1)
    ∧ ∃ box2 w2,
        (let* r0 := Box.toResult box in construct r0) w1 = (Normal box2, w2)
        ∧ box2 ≠ box
        ∧ boxes w2 !! box2 = Some r
        ∧ boxes w2 !! box = Some r.
Proof.
  rewrite construct_new_Box.
  destruct (new_Box_extends r w) as (box & -> & Hfresh & Hext).
  set (w1 := mkWorld (<[box := r]> (boxes w)) (calls w)).
  assert (E : boxes w1 !! box = Some r) by apply lookup_insert_eq.
  exists box, w1. split; [done|]. split; [done|]. split; [done|].
  split; [by apply result_of_live|].
  split; [by unfold Box.isOk, bind; rewrite (result_of_live _ _ _ E)|].
  split.
  { unfold Box.isErr, bind. rewrite (result_of_live _ _ _ E). by destruct r. }
  split; [rewrite (unwrapOr_spec _ _ _ _ E); by destruct r|].
  unfold bind, Box.toResult. rewrite (result_of_live _ _ _ E), construct_new_Box.
  destruct (new_Box_extends r w1) as (box2 & -> & Hfresh2 & Hext2).
  eexists _, _. split; [done|]. cbn [boxes].
  assert (box2 ≠ box).
  { intros ->. apply Hfresh2. apply elem_of_dom. by eexists. }
  split; [done|]. rewrite lookup_insert_eq. split; [done|].
  by rewrite lookup_insert_ne.
Qed.

(** X17.  [Box.fail(tag, props)] followed by [catchTag(tag, handler)].
    When [props] carries no [_tag] the failure is caught: the chain is the
    call of [handler] on the variant.  When [props] carries a [_tag] that is
    not the string [tag], the failure made under [tag] is not caught under
    [tag]: the chain returns the wrapper of the failure. *)
Theorem X17_fail_is_caught_unless_props_override (tag : string)
    (props : option (gmap string value)) (handler : value → Eff loc) (w : World) :
  ∃ box w1,
    Box.fail tag props w = (Normal box, w1)
    ∧ boxes w1 !! box = Some (ErrVariant (stamped tag props))
    ∧ (let* b := Box.fail tag props in Box.catchTag b tag handler) w
      = match props ≫= (fun fields => fields !! "_tag") with
        | None => handler (stamped tag props) w1
        | Some t =>
            if strict_eq_string t tag then handler (stamped tag props) w1
            else (Normal box, w1)
        end.
Proof.
  unfold Box.fail, Box.err, err.
  destruct (new_Box_extends (ErrVariant (stamped tag props)) w)
    as (box & Hnew & Hfresh & Hext).
  change (VObj Object_prototype (spread {[ "_tag" := VStr tag ]} props))
    with (stamped tag props).
  set (w1 := mkWorld (<[box := ErrVariant (stamped tag props)]> (boxes w)) (calls w)) in *.
  assert (E : boxes w1 !! box = Some (ErrVariant (stamped tag props)))
    by apply lookup_insert_eq.
  exists box, w1. split; [done|]. split; [done|].
  unfold bind at 1. rewrite Hnew.
  destruct props as [fields|]; cbn [mbind option_bind].
  - destruct (fields !! "_tag") as [t|] eqn:Ht.
    + by rewrite (catchTag_err _ _ t _ _ _ E (stamped_with_tag _ _ _ Ht)).
    + rewrite (catchTag_err _ _ (VStr tag) _ _ _ E).
      * cbn. by rewrite String.eqb_refl.
      * rewrite (stamped_without_tag _ _ Ht). cbn. by rewrite lookup_insert_eq.
  - rewrite (catchTag_err _ _ (VStr tag) _ _ _ E); [|done].
    cbn. by rewrite String.eqb_refl.
Qed.

(** ** error.ts *)

(** X18.  [defineErrors] makes one constructor for each key of the
    definitions and nothing else.  The constructor stored under a key builds
    variants that carry that key as discriminant, with no fields when called
    without argument, and with every given field an own property that reads
    back under its name when the fields have no [_tag] of their own. *)
Theorem X18_defineErrors_one_constructor_per_key {D} (definitions : gmap string D) :
  dom (error.defineErrors definitions) = dom definitions
  ∧ ∀ key constructor,
      error.defineErrors definitions !! key = Some constructor →
      constructor None = VObj Object_prototype {[ "_tag" := VStr key ]}
      ∧ ∀ fields,
          fields !! "_tag" = None →
          has_tag (constructor (Some fields)) key
          ∧ ∀ field v,
              fields !! field = Some v →
              get (constructor (Some fields)) field = Normal v.
Proof.
  split.
  - apply set_eq. intros key.
    by rewrite !elem_of_dom, defineErrors_lookup, fmap_is_Some.
  - intros key constructor. rewrite defineErrors_lookup.
    destruct (definitions !! key); cbn; [|done]. intros [= <-].
    split; [done|]. intros fields Hnone. split.
    + unfold has_tag. rewrite (stamped_without_tag _ _ Hnone). cbn.
      by rewrite lookup_insert_eq.
    + intros field v Hv. apply stamped_fields; [|done].
      intros ->. congruence.
Qed.

(** X19.  [unknownError(cause)] returns a variant tagged ["UnknownError"]
    that keeps the cause.  For an [Error] instance the message is the
    message of the instance and nothing is converted; for any other value
    it is [String(cause)].  The only way it throws is that conversion
    throwing, which takes an object. *)
Theorem X19_unknownError_keeps_the_cause `{Host} (cause : value) :
  match error.unknownError cause with
  | Normal u =>
      has_tag u "UnknownError"
      ∧ get u "cause" = Normal cause
      ∧ (instanceof_Error cause = true →
         ∃ p own, cause = VObj p own
           ∧ get u "message" = Normal (default (VStr EmptyString) (own !! "message")))
      ∧ (instanceof_Error cause = false →
         ∃ s, ToString cause = Normal s ∧ get u "message" = Normal (VStr s))
  | Throw x =>
      instanceof_Error cause = false ∧ ToString cause = Throw x
      ∧ ∃ p own, cause = VObj p own
  end.
Proof.
  unfold error.unknownError.
  destruct (instanceof_Error cause) eqn:Hi.
  - destruct cause as [| | b | z | n | s | p own]; try discriminate Hi.
    split; [done|]. split; [done|]. split; [|done].
    intros _. exists p, own. split; [done|]. cbn. by rewrite lookup_insert_eq.
  - destruct (ToString cause) as [s | x] eqn:Hs.
    + split; [done|]. split; [done|]. split; [done|].
      intros _. exists s. split; [done|]. cbn. by rewrite lookup_insert_eq.
    + split; [done|]. split; [done|].
      destruct cause as [| | [|] | z | n | s | p own]; try discriminate Hs. eauto.
Qed.

(** X20.  An instance of a class made by [makeTaggedError(tag)] is an
    [Error] and a tagged variant at once: it carries [tag] and its props,
    [catchTag(tag, handler)] hands it to [handler], and [unknownError] takes
    its message, which is the tag, a colon and the serialized props.  The
    constructor throws only when [JSON.stringify] does. *)
Theorem X20_makeTaggedError_instances `{Host} (tag : string) (props : value)
    (handler : value → Eff loc) (w : World) :
  match error.makeTaggedError tag props with
  | Normal instance =>
      instanceof_Error instance = true
      ∧ has_tag instance tag
      ∧ get instance "props" = Normal props
      ∧ (let* b := Box.err instance in Box.catchTag b tag handler) w
        = handler instance (Box.err instance w).2
      ∧ ∃ json u,
          JSON_stringify props = Normal json
          ∧ error.unknownError instance = Normal u
          ∧ get u "message" = Normal (VStr (tag ++ ": " ++ default "undefined" json))
  | Throw x => JSON_stringify props = Throw x
  end.
Proof.
  unfold error.makeTaggedError.
  destruct (JSON_stringify props) as [json | x]; [|done].
  set (own := <["name" := VStr tag]> _).
  assert (Htag : has_tag (VObj Error_prototype own) tag).
  { unfold has_tag, own. cbn.
    by rewrite lookup_insert_ne, lookup_insert_ne, lookup_insert_eq. }
  split; [done|]. split; [done|]. split.
  { unfold own. cbn. by rewrite lookup_insert_ne, lookup_insert_eq. }
  split.
  - unfold bind. cbn [Box.err Box.new_Box snd].
    rewrite (catchTag_err _ _ (VStr tag) _ _ _ (lookup_insert_eq _ _ _) Htag).
    cbn. by rewrite String.eqb_refl.
  - exists json. eexists. split; [done|].
    rewrite (unknownError_of_Error Error_prototype own eq_refl). split; [done|].
    cbn. rewrite lookup_insert_eq. unfold own.
    rewrite !lookup_insert_ne by done. by rewrite lookup_singleton_eq.
Qed.

(** ** async_box.ts *)

(** X21.  The promise of [fromPromise(promise, onError)] rejects in one
    case only: the given promise rejected and [onError] threw on its reason.
    A rejection [onError] maps becomes a Failure, a fulfilment a Success. *)
Theorem X21_fromPromise_rejects_only_when_onError_throws
    (p : AsyncBox.Promise value) (onError : value → Completion value) (x : value) :
  (AsyncBox.run (AsyncBox.fromPromise p onError) = AsyncBox.Rejected x
   ↔ ∃ reason, p = AsyncBox.Rejected reason ∧ onError reason = Throw x)
  ∧ match p with
    | AsyncBox.Fulfilled v =>
        AsyncBox.run (AsyncBox.fromPromise p onError) = AsyncBox.Fulfilled (OkVariant v)
    | AsyncBox.Rejected reason =>
        ∀ error, onError reason = Normal error →
          AsyncBox.run (AsyncBox.fromPromise p onError)
          = AsyncBox.Fulfilled (ErrVariant error)
    | AsyncBox.Pending =>
        AsyncBox.run (AsyncBox.fromPromise p onError) = AsyncBox.Pending
    end.
Proof.
  split.
  - destruct p as [v | reason |]; cbn.
    + split; [discriminate | by intros (? & ? & _)].
    + destruct (onError reason) as [error | y] eqn:Hon; cbn.
      * split; [discriminate|]. intros (reason' & [= <-] & Hthrow). congruence.
      * split; [intros [= ->]; eauto|]. intros (reason' & [= <-] & Hthrow).
        congruence.
    + split; [discriminate | by intros (? & ? & _)].
  - destruct p as [v | reason |]; cbn; [done| |done]. by intros error ->.
Qed.

(** Each step leaves a promise that did not fulfil as it is. *)
Lemma apply_step_unsettled this s :
  match AsyncBox.run this with
  | AsyncBox.Fulfilled _ => True
  | unsettled => AsyncBox.run (apply_step this s) = unsettled
  end.
Proof.
  destruct this as [[r | reason |]]; cbn; [done| |]; by destruct s.
Qed.

(** X22.  The transformations of [AsyncBox] replay those of [Box].  With
    callbacks that only compute, the asynchronous method on a wrapper
    already fulfilled with [r] fulfils with the contents of the wrapper the
    synchronous method returns on a wrapper holding [r]; and where the
    synchronous method throws, the asynchronous one rejects with what it
    threw. *)
Theorem X22_AsyncBox_replays_Box (t : transformation) (this : loc) (r : Result)
    (w : World) :
  boxes w !! this = Some r →
  match on_Box t this w with
  | (Normal box, w1) =>
      ∃ r', boxes w1 !! box = Some r'
            ∧ AsyncBox.run (on_AsyncBox t (settled r)) = AsyncBox.Fulfilled r'
  | (Throw x, _) => AsyncBox.run (on_AsyncBox t (settled r)) = AsyncBox.Rejected x
  end.
Proof.
  intros E.
  destruct t as [f | f | g | tag g | g]; cbn [on_Box on_AsyncBox].
  - destruct (map_pure this r f w E) as (box & _ & ->).
    eexists. cbn. rewrite lookup_insert_eq. split; [done|]. by destruct r.
  - destruct (mapErr_pure this r f w E) as (box & _ & ->).
    eexists. cbn. rewrite lookup_insert_eq. split; [done|]. by destruct r.
  - destruct r as [v | error].
    + rewrite (flatMap_ok _ _ _ _ E), construct_new_Box.
      eexists. cbn. by rewrite lookup_insert_eq.
    + rewrite (flatMap_err _ _ _ _ E). by eexists.
  - destruct r as [v | error].
    + rewrite (catchTag_ok _ _ _ _ _ E). by eexists.
    + unfold Box.catchTag, bind, lift. rewrite (result_of_live _ _ _ E). cbn.
      destruct (get error "_tag") as [t | x]; [|done].
      destruct (strict_eq_string t tag).
      * rewrite construct_new_Box. eexists. cbn. by rewrite lookup_insert_eq.
      * by eexists.
  - destruct r as [v | error].
    + rewrite (catchAll_ok _ _ _ _ E). by eexists.
    + rewrite (catchAll_err _ _ _ _ E), construct_new_Box.
      eexists. cbn. by rewrite lookup_insert_eq.
Qed.

Lemma X22_witness :
  boxes w_not_found !! 0 = Some (ErrVariant NotFound_123)
  ∧ match on_Box (t_catchTag "NotFound" (fun _ => OkVariant (VNum 0))) 0 w_not_found with
    | (Normal box, w1) =>
        ∃ r', boxes w1 !! box = Some r'
              ∧ AsyncBox.run
                  (on_AsyncBox (t_catchTag "NotFound" (fun _ => OkVariant (VNum 0)))
                     (settled (ErrVariant NotFound_123)))
                = AsyncBox.Fulfilled r'
    | (Throw x, _) =>
        AsyncBox.run
          (on_AsyncBox (t_catchTag "NotFound" (fun _ => OkVariant (VNum 0)))
             (settled (ErrVariant NotFound_123)))
        = AsyncBox.Rejected x
    end.
Proof.
  split; [reflexivity|].
  exact (X22_AsyncBox_replays_Box (t_catchTag "NotFound" (fun _ => OkVariant (VNum 0)))
           0 (ErrVariant NotFound_123) w_not_found eq_refl).
Defined.

(** X23.  No step of a chain recovers a promise that did not fulfil.  If
    the promise of a wrapper rejected, every chain of [map], [mapErr],
    [tap], [tapErr], [flatMap], [catchTag] and [catchAll] on it rejects with
    the same reason and runs no callback; if it never settles, neither does
    the chain.  So what a [map] callback throws is a rejection that no later
    [catchAll] turns into a Result. *)
Theorem X23_chain_keeps_a_rejection (this : AsyncBox.AsyncBox) (steps : list step) :
  match AsyncBox.run this with
  | AsyncBox.Fulfilled _ => True
  | unsettled => AsyncBox.run (chain this steps) = unsettled
  end
  ∧ ∀ v fn x,
      fn v = Throw x →
      AsyncBox.run (chain (AsyncBox.ok v) (s_map fn :: steps)) = AsyncBox.Rejected x.
Proof.
  assert (Hkeep : ∀ steps this,
            match AsyncBox.run this with
            | AsyncBox.Fulfilled _ => True
            | unsettled => AsyncBox.run (chain this steps) = unsettled
            end).
  { clear. induction steps as [| s steps IH]; intros this.
    - unfold chain. cbn [foldl]. by destruct (AsyncBox.run this).
    - unfold chain. cbn [foldl]. fold (chain (apply_step this s) steps).
      pose proof (apply_step_unsettled this s) as Hs.
      pose proof (IH (apply_step this s)) as Hrest.
      destruct (AsyncBox.run this); [done| |]; by rewrite Hs in Hrest. }
  split; [apply Hkeep|].
  intros v fn x Hfn. unfold chain. cbn [foldl apply_step].
  fold (chain (AsyncBox.map (AsyncBox.ok v) fn) steps).
  pose proof (Hkeep steps (AsyncBox.map (AsyncBox.ok v) fn)) as Hrest.
  cbn in Hrest. by rewrite Hfn in Hrest.
Qed.

(** X24.  [tap(fn)] on a Success waits for [fn] and keeps the Result:
    when the call returns, or the promise it returns fulfils, the wrapper
    fulfils with the Result it had; when the call throws or its promise
    rejects, the wrapper rejects; when its promise never settles, neither
    does the wrapper.  On a Failure [tap] does not depend on [fn].
    [tapErr] is the mirror image. *)
Theorem X24_tap_waits_and_keeps_the_result (r : Result)
    (fn : value → Completion (AsyncBox.Promise value)) :
  let after (c : Completion (AsyncBox.Promise value)) :=
    match c with
    | Normal (AsyncBox.Fulfilled _) => AsyncBox.Fulfilled r
    | Normal (AsyncBox.Rejected x) => AsyncBox.Rejected x
    | Normal AsyncBox.Pending => AsyncBox.Pending
    | Throw x => AsyncBox.Rejected x
    end in
  AsyncBox.run (AsyncBox.tap (settled r) fn)
  = (if isOk r then after (fn (payload r)) else AsyncBox.Fulfilled r)
  ∧ AsyncBox.run (AsyncBox.tapErr (settled r) fn)
    = (if isOk r then AsyncBox.Fulfilled r else after (fn (payload r))).
Proof.
  destruct r as [v | error]; cbn.
  - split; [|done]. by destruct (fn v) as [[? | ? |] | ?].
  - split; [done|]. by destruct (fn error) as [[? | ? |] | ?].
Qed.

(** X25.  The consuming methods of [AsyncBox] replay those of [Box]: on a
    wrapper already fulfilled with [r], [unwrapOr], [match] and
    [matchExhaustive] settle the way the synchronous method completes on a
    wrapper holding [r], a throw becoming a rejection, and
    [matchExhaustive] leaves the world the synchronous one leaves. *)
Theorem X25_async_consumers_replay_Box `{Host} (this : loc) (r : Result)
    (d : value) (h_ok h_err : value → value)
    (config : gmap string (value → Eff value)) (w : World) :
  boxes w !! this = Some r →
  AsyncBox.unwrapOr (settled r) d = settle (Box.unwrapOr this d w).1
  ∧ AsyncBox.match_ (settled r) (fun v => Normal (h_ok v)) (fun e => Normal (h_err e))
    = settle (Box.match_ this (pure h_ok) (pure h_err) w).1
  ∧ AsyncBox.matchExhaustive (settled r) config w
    = (settle (Box.matchExhaustive this config w).1,
       (Box.matchExhaustive this config w).2).
Proof.
  intros E. split; [|split].
  - rewrite (unwrapOr_spec _ _ _ _ E). by destruct r.
  - unfold Box.match_, bind. rewrite (result_of_live _ _ _ E). by destruct r.
  - rewrite (Box_matchExhaustive_live _ _ _ _ E).
    unfold AsyncBox.matchExhaustive. cbn [settled AsyncBox.promise].
    by destruct (matcher.matchExhaustive r config w) as [[v | x] w1].
Qed.

Lemma X25_witness :
  boxes w_not_found !! 0 = Some (ErrVariant NotFound_123)
  ∧ AsyncBox.matchExhaustive (settled (ErrVariant NotFound_123))
      (spy_table resource_handlers) w_not_found
    = (AsyncBox.Fulfilled (VStr "Resource 123 not found"),
       journal w_not_found [("NotFound", NotFound_123)]).
Proof.
  split; [reflexivity|].
  exact (proj2 (proj2 (X25_async_consumers_replay_Box 0 (ErrVariant NotFound_123)
           VUndefined (fun v => v) (fun v => v) (spy_table resource_handlers)
           w_not_found eq_refl))).
Defined.

(** X26.  [wrap] on a function, or on a [try] function, that returns a
    promise.  Fulfilment with [v] gives Success([v]).  Rejection with [e]
    gives, in the function form, the Failure of [unknownError(e)], tagged
    ["UnknownError"] and keeping [e] as cause, and in the configuration form
    the Failure of [catch(e)].  A promise that never settles leaves the
    wrapper pending. *)
Theorem X26_wrap_captures_rejections `{Host} (p : AsyncBox.Promise value)
    (g : value → value) :
  ∃ box box',
    AsyncBox.wrap (AsyncBox.WrapFunction (fun _ => Normal p)) = Normal box
    ∧ AsyncBox.wrap (AsyncBox.WrapConfig (fun _ => Normal p) (fun e => Normal (g e)))
      = Normal box'
    ∧ match p with
      | AsyncBox.Fulfilled v =>
          AsyncBox.run box = AsyncBox.Fulfilled (OkVariant v)
          ∧ AsyncBox.run box' = AsyncBox.Fulfilled (OkVariant v)
      | AsyncBox.Rejected e =>
          AsyncBox.run box' = AsyncBox.Fulfilled (ErrVariant (g e))
          ∧ match error.unknownError e with
            | Normal u =>
                AsyncBox.run box = AsyncBox.Fulfilled (ErrVariant u)
                ∧ has_tag u "UnknownError" ∧ get u "cause" = Normal e
            | Throw x => AsyncBox.run box = AsyncBox.Rejected x
            end
      | AsyncBox.Pending =>
          AsyncBox.run box = AsyncBox.Pending ∧ AsyncBox.run box' = AsyncBox.Pending
      end.
Proof.
  eexists _, _. split; [reflexivity|]. split; [reflexivity|].
  destruct p as [v | e |]; cbn; [done| |done]. split; [done|].
  unfold error.unknownError.
  destruct (instanceof_Error e).
  - by destruct e.
  - by destruct (ToString e).
Qed.
